(** * app_review: flattening of App Store and Play Store review payloads

    A shallow embedding of [get_apple_app_store_reviews.py] and
    [get_google_play_app_reviews.py].  Python values obtained from
    [json.loads] are a tree type; Python dicts keep their insertion order, so
    they are association lists; exceptions are an error monad; the in-place
    mutation of the result lists is written as explicit state passing. *)

From Stdlib Require Import List String Ascii ZArith Bool Lia.
Import ListNotations.
Open Scope string_scope.
Open Scope list_scope.

(** ** Python values, exceptions and the few built-ins both files use *)

Module Py.

(** The exceptions the two files can raise. *)
Inductive exn : Type :=
| KeyError
| TypeError
| UnboundLocalError
| JSONDecodeError.

Inductive result (A : Type) : Type :=
| Ok (a : A)
| Raise (e : exn).
Arguments Ok {A} a.
Arguments Raise {A} e.

Definition bind {A B : Type} (m : result A) (k : A -> result B) : result B :=
  match m with
  | Ok a => k a
  | Raise e => Raise e
  end.

(** What [json.loads] produces: None, bool, int, float, str, list, dict.
    A float is kept as decimal mantissa and exponent; no function of the two
    files computes with numbers. *)
Unset Elimination Schemes.
Inductive value : Type :=
| PNone
| PBool (b : bool)
| PInt (n : Z)
| PFloat (m e : Z)
| PStr (s : string)
| PList (items : list value)
| PDict (items : list (string * value)).
Set Elimination Schemes.

(** A dict in insertion order. *)
Definition dict : Type := list (string * value).

Definition keys (d : dict) : list string := map fst d.

(** [d[k]] as a lookup. *)
Fixpoint dict_get (k : string) (d : dict) : option value :=
  match d with
  | [] => None
  | (k', v) :: rest => if String.eqb k' k then Some v else dict_get k rest
  end.

(** [d[k] = v]: an existing key keeps its position, a new one goes last. *)
Fixpoint dict_set (k : string) (v : value) (d : dict) : dict :=
  match d with
  | [] => [(k, v)]
  | (k', v') :: rest =>
      if String.eqb k' k then (k', v) :: rest else (k', v') :: dict_set k v rest
  end.

(** [d.update(e)]. *)
Definition dict_update (d e : dict) : dict :=
  fold_left (fun acc kv => dict_set (fst kv) (snd kv) acc) e d.

(** [isinstance(v, (dict, list))]. *)
Definition is_dict_or_list (v : value) : bool :=
  match v with
  | PList _ | PDict _ => true
  | _ => false
  end.

(** [x == s] for a str literal [s]. *)
Definition eq_str (x : value) (s : string) : bool :=
  match x with
  | PStr t => String.eqb t s
  | _ => false
  end.

Definition chars (s : string) : list value :=
  map (fun c => PStr (String c EmptyString)) (list_ascii_of_string s).

(** [for x in obj]: the keys of a dict, the items of a list, the characters
    of a str (one-character strs); anything else is not iterable. *)
Definition iter (obj : value) : result (list value) :=
  match obj with
  | PDict items => Ok (map (fun kv => PStr (fst kv)) items)
  | PList items => Ok items
  | PStr s => Ok (chars s)
  | _ => Raise TypeError
  end.

(** [obj[k]] for a str [k] (every subscript of the two files is by a str):
    a dict looks the key up, a list or a str wants an integer index, the
    other values are not subscriptable. *)
Definition getitem (obj : value) (k : string) : result value :=
  match obj with
  | PDict items =>
      match dict_get k items with
      | Some v => Ok v
      | None => Raise KeyError
      end
  | _ => Raise TypeError
  end.

(** A [for] loop whose body may raise. *)
Fixpoint foldM {S A : Type} (body : S -> A -> result S) (l : list A) (s : S)
  : result S :=
  match l with
  | [] => Ok s
  | a :: rest =>
      match body s a with
      | Ok s' => foldM body rest s'
      | Raise e => Raise e
      end
  end.

End Py.

Import Py.

Notation "x <- m ;; k" := (bind m (fun x => k))
  (at level 61, m at next level, right associativity).

(** ** get_apple_app_store_reviews.py *)

Module AppStore.

(** (JSON key, JSON nested key, name of extracted data) *)
Definition rule : Type := (string * string * string)%type.

Definition author_keys : list rule :=
  [ ("uri", "label", "author_uri");
    ("name", "label", "author_name") ].

Definition other_keys : list rule :=
  [ ("im:version", "label", "im_version");
    ("im:rating", "label", "im_rating");
    ("id", "label", "id");
    ("title", "label", "title");
    ("content", "label", "content");
    ("im:voteSum", "label", "im_votesum");
    ("im:voteCount", "label", "im_votecount") ].

Definition link_keys : list rule :=
  [ ("attributes", "rel", "link_attributes_related");
    ("attributes", "href", "link_attributes_href") ].

Definition content_keys : list rule :=
  [ ("attributes", "term", "content_attributes_term");
    ("attributes", "label", "content_attributes_label") ].

Definition review_sections : list (string * list rule) :=
  [ ("author", author_keys);
    ("link", link_keys);
    ("im:contentType", content_keys) ].

Definition dest (key : rule) : string := snd key.
Definition source_key (key : rule) : string := fst (fst key).
Definition nested_key (key : rule) : string := snd (fst key).

(** The body of the inner loop of [extract_matches]. *)
Definition extract_match (review_section entry : value)
           (review_extract : dict) (key : rule) : result dict :=
  if eq_str entry (source_key key) then
    if String.eqb (nested_key key) "" then
      v <- getitem review_section (source_key key) ;;
      Ok (dict_set (dest key) v review_extract)
    else
      s <- getitem review_section (source_key key) ;;
      v <- getitem s (nested_key key) ;;
      Ok (dict_set (dest key) v review_extract)
  else Ok review_extract.

Definition extract_matches (keys : list rule) (review_section : value)
  : result dict :=
  entries <- iter review_section ;;
  foldM (fun review_extract entry =>
           foldM (extract_match review_section entry) keys review_extract)
        entries [].

(** The body of the loop of [process_reviews]: one review to one record. *)
Definition flatten_review (review : value) : result dict :=
  review_flat <- extract_matches other_keys review ;;
  foldM (fun review_flat section =>
           sub <- getitem review (fst section) ;;
           e <- extract_matches (snd section) sub ;;
           Ok (dict_update review_flat e))
        review_sections review_flat.

(** [all_reviews] is appended to in place: what was appended before an
    exception stays in the caller's list.  The result is the list after the
    call, and the exception if one was raised. *)
Fixpoint process_reviews_loop (all_reviews : list dict) (review_list : list value)
  : list dict * option exn :=
  match review_list with
  | [] => (all_reviews, None)
  | review :: rest =>
      match flatten_review review with
      | Ok review_flat => process_reviews_loop (all_reviews ++ [review_flat]) rest
      | Raise e => (all_reviews, Some e)
      end
  end.

Definition process_reviews (all_reviews : list dict) (review_list : value)
  : list dict * option exn :=
  match iter review_list with
  | Ok l => process_reviews_loop all_reviews l
  | Raise e => (all_reviews, Some e)
  end.

(** The answer of [requests.get]: the status code, and [json.loads] of the
    text ([None] when the text is not JSON).  A request that itself raises
    is outside the model. *)
Record response : Type := {
  status_code : Z;
  json_loads_text : option value
}.

(** What a run does to the outside: the pages it asks for and the raw
    payloads it saves ([save_json] is taken to succeed). *)
Inductive event : Type :=
| Requested (page_no : nat)
| SavedJson (page_no : nat).

Section Run.

(** The Apple API, by app id and page number. *)
Variable requests_get : Z -> nat -> response.

Definition get_reviews (review_id : Z) (page_no : nat) : option response :=
  let response := requests_get review_id page_no in
  if Z.eqb (status_code response) 200 then Some response else None.

(** [reviews['feed']['entry']] *)
Definition feed_entry (reviews : value) : result value :=
  feed <- getitem reviews "feed" ;;
  getitem feed "entry".

(** The loop over [range(no_of_pages)] ([no_of_pages] is a [nat]: the range
    of a negative int is empty, as that of 0).  The result is the trace and what
    the function returns: [Ok None] for the bare [return], [Ok (Some l)]
    for [return (all_reviews)]; [json.loads] is outside the [try]. *)
Fixpoint pages_loop (review_id : Z) (pages : list nat)
         (all_reviews : list dict) (trace : list event)
  : list event * result (option (list dict)) :=
  match pages with
  | [] => (trace, Ok (Some all_reviews))
  | page :: rest =>
      let trace := trace ++ [Requested (page + 1)] in
      match get_reviews review_id (page + 1) with
      | None => (trace, Ok None)
      | Some reviews_response =>
          match json_loads_text reviews_response with
          | None => (trace, Raise JSONDecodeError)
          | Some reviews =>
              match feed_entry reviews with
              | Raise _ => (trace, Ok (Some all_reviews))
              | Ok review_list =>
                  let trace := trace ++ [SavedJson (page + 1)] in
                  match process_reviews all_reviews review_list with
                  | (all_reviews, None) =>
                      pages_loop review_id rest all_reviews trace
                  | (all_reviews, Some _) => (trace, Ok (Some all_reviews))
                  end
              end
          end
      end
  end.

Definition get_and_collect_reviews (review_id : Z) (no_of_pages : nat)
  : list event * result (option (list dict)) :=
  pages_loop review_id (seq 0 no_of_pages) [] [].

End Run.

End AppStore.

(** ** get_google_play_app_reviews.py *)

Module PlayStore.

(** The inner [extract] of [extract_values]; [arr] is the list it appends
    to, threaded through the calls. *)
Fixpoint extract (obj : value) (arr : list value) (key : string) {struct obj}
  : list value :=
  match obj with
  | PDict items =>
      (fix items_loop (l : list (string * value)) (arr : list value)
         : list value :=
         match l with
         | [] => arr
         | (k, v) :: rest =>
             if is_dict_or_list v then items_loop rest (extract v arr key)
             else if String.eqb k key then arr ++ [v]
             else items_loop rest arr
         end) items arr
  | PList items =>
      (fix list_loop (l : list value) (arr : list value) : list value :=
         match l with
         | [] => arr
         | item :: rest => list_loop rest (extract item arr key)
         end) items arr
  | _ => arr
  end.

Definition extract_values (obj : value) (key : string) : value :=
  match extract obj [] key with
  | [] => PNone
  | r :: _ => r
  end.

Definition extract_timestamp (last_modified : value) : result (value * value) :=
  ts <- iter last_modified ;;
  foldM (fun sn t =>
           seconds <- (if eq_str t "seconds"
                       then getitem last_modified "seconds"
                       else Ok (fst sn)) ;;
           nanos <- (if eq_str t "nanos"
                     then getitem last_modified "nanos"
                     else Ok (snd sn)) ;;
           Ok (seconds, nanos))
        ts (PNone, PNone).

Definition comments_keys : list (string * string) :=
  [ ("starRating", "star_rating");
    ("reviewerLanguage", "reviewer_language");
    ("device", "device");
    ("androidOsVersion", "android_os_version");
    ("appVersionCode", "app_version_code");
    ("appVersionName", "app_version_name");
    ("thumbsUpCount", "thumbs_up_count");
    ("thumbsDownCount", "thumbs_down_count");
    ("originalText", "original_text") ].

Definition metadata_keys : list (string * string) :=
  [ ("productName", "device_product_name");
    ("manufacturer", "device_manufacturer");
    ("screenHeightPx", "device_screen_height_px");
    ("screenWidthPx", "device_screen_width_px");
    ("screenHeightPx", "device_screen_height_px");
    ("nativePlatform", "device_native_platform");
    ("screenDensityDpi", "device_screen_density_dpi");
    ("glEsVersion", "device_gles_version");
    ("cpuModel", "device_cpu_model");
    ("cpuMake", "device_cpu_make");
    ("ramMb", "device_ram_mb") ].

(** The optional fields [extract_comments] sets to None first. *)
Definition prepopulated_optional : list string :=
  [ "android_os_version"; "app_version_code"; "app_version_name"; "device";
    "reviewer_language"; "dev_comment_last_modified_seconds";
    "dev_comment_last_modified_nanos"; "dev_comment_text" ].

Definition initial_review_data (review_id author_name : value) : dict :=
  fold_left (fun review_data f => dict_set f PNone review_data)
            prepopulated_optional
            (dict_set "author_name" author_name
                      (dict_set "review_id" review_id [])).

(** [for n in keys: review_data[n[1]] = extract_values(obj, n[0])] *)
Definition extract_all (keys : list (string * string)) (obj : value)
           (review_data : dict) : dict :=
  fold_left (fun review_data n =>
               dict_set (snd n) (extract_values obj (fst n)) review_data)
            keys review_data.

(** The body of [for val in user_comment]. *)
Definition user_comment_val (user_comment : value) (review_data : dict)
           (val : value) : result dict :=
  if eq_str val "text" then
    text <- getitem user_comment "text" ;;
    Ok (dict_set "user_comment" text review_data)
  else if eq_str val "lastModified" then
    last_modified <- getitem user_comment "lastModified" ;;
    sn <- extract_timestamp last_modified ;;
    Ok (dict_set "user_comment_last_modified_nanos" (snd sn)
          (dict_set "user_comment_last_modified_seconds" (fst sn) review_data))
  else if eq_str val "deviceMetadata" then
    Ok (extract_all metadata_keys user_comment review_data)
  else
    Ok (extract_all comments_keys user_comment review_data).

(** The body of [for val in dev_comment]. *)
Definition dev_comment_val (dev_comment : value) (review_data : dict)
           (val : value) : result dict :=
  if eq_str val "lastModified" then
    last_modified <- getitem dev_comment "lastModified" ;;
    sn <- extract_timestamp last_modified ;;
    Ok (dict_set "dev_comment_last_modified_nanos" (snd sn)
          (dict_set "dev_comment_last_modified_seconds" (fst sn) review_data))
  else if eq_str val "text" then
    text <- getitem dev_comment "text" ;;
    Ok (dict_set "dev_comment_text" text review_data)
  else Ok review_data.

(** The body of [for entry in comment]. *)
Definition comment_entry (comment : value) (review_data : dict)
           (entry : value) : result dict :=
  review_data <-
    (if eq_str entry "userComment" then
       user_comment <- getitem comment "userComment" ;;
       vals <- iter user_comment ;;
       foldM (user_comment_val user_comment) vals review_data
     else Ok review_data) ;;
  if eq_str entry "developerComment" then
    dev_comment <- getitem comment "developerComment" ;;
    vals <- iter dev_comment ;;
    foldM (dev_comment_val dev_comment) vals review_data
  else Ok review_data.

Definition extract_comments (comment review_id author_name : value)
  : result dict :=
  entries <- iter comment ;;
  foldM (comment_entry comment) entries
        (initial_review_data review_id author_name).

(** The local variables of [process_json] that outlive one review:
    [review_id] ([None] while it is unbound) and [all_review_data]. *)
Definition locals : Type := (option value * list dict)%type.

(** Reading the variable [review_id]. *)
Definition read_review_id (review_id : option value) : result value :=
  match review_id with
  | Some v => Ok v
  | None => Raise UnboundLocalError
  end.

(** The body of [for review_key in review]; the state is [review_id],
    [author_name] and [all_review_data]. *)
Definition review_key_step (review : value)
           (st : option value * value * list dict) (review_key : value)
  : result (option value * value * list dict) :=
  let '(review_id, author_name, all_review_data) := st in
  review_id <- (if eq_str review_key "reviewId"
                then v <- getitem review "reviewId" ;; Ok (Some v)
                else Ok review_id) ;;
  author_name <- (if eq_str review_key "authorName"
                  then getitem review "authorName"
                  else Ok author_name) ;;
  if eq_str review_key "comments" then
    comments <- getitem review "comments" ;;
    cs <- iter comments ;;
    all_review_data <-
      foldM (fun all_review_data comment =>
               rid <- read_review_id review_id ;;
               review_data <- extract_comments comment rid author_name ;;
               Ok (all_review_data ++ [review_data]))
            cs all_review_data ;;
    Ok (review_id, author_name, all_review_data)
  else Ok (review_id, author_name, all_review_data).

(** The body of [for review in reviews]: [author_name = None], then the
    loop over the keys of the review. *)
Definition process_review (st : locals) (review : value) : result locals :=
  review_keys <- iter review ;;
  st' <- foldM (review_key_step review) review_keys (fst st, PNone, snd st) ;;
  Ok (fst (fst st'), snd st').

Definition process_json (review_j : value) : result (list dict) :=
  entries <- iter review_j ;;
  st <- foldM (fun st entries =>
                 if eq_str entries "reviews" then
                   reviews <- getitem review_j "reviews" ;;
                   rs <- iter reviews ;;
                   foldM process_review rs st
                 else Ok st)
              entries (None, []) ;;
  Ok (snd st).

End PlayStore.

(** ** Notions the statements below are written with *)

Module AppStoreSpec.
Import AppStore.

(** A rule can be resolved against a section when its nested key, if it has
    one, is found under the value at its source key. *)
Definition resolvable (keys : list rule) (section : dict) : Prop :=
  forall key v,
    In key keys ->
    dict_get (source_key key) section = Some v ->
    nested_key key <> "" ->
    exists w, getitem v (nested_key key) = Ok w.

(** All the reviews of a list flatten, to the records [recs]. *)
Definition flatten_all (review_list : list value) : result (list dict) :=
  foldM (fun recs review =>
           review_flat <- flatten_review review ;;
           Ok (recs ++ [review_flat]))
        review_list [].

(** A page the API answers with status 200 and whose [feed.entry] is a list
    of reviews that all flatten, giving [recs]. *)
Definition well_formed_page (r : response) (recs : list dict) : Prop :=
  status_code r = 200%Z /\
  exists reviews review_list,
    json_loads_text r = Some reviews /\
    feed_entry reviews = Ok (PList review_list) /\
    flatten_all review_list = Ok recs.

(** A value found at [feed.entry] that is no usable list of reviews: a
    scalar, a str or a mapping that is not empty, or a list whose first
    review does not flatten.  (An empty str, mapping or list is iterated as
    a page of no reviews; a list whose first review flattens adds
    records.) *)
Definition malformed_review_list (v : value) : Prop :=
  match v with
  | PList [] => False
  | PList (review :: _) => exists e, flatten_review review = Raise e
  | PStr s => s <> ""
  | PDict items => items <> []
  | _ => True
  end.

(** A page answered with status 200 whose review list is missing
    ([reviews['feed']['entry']] raises) or malformed. *)
Definition end_of_data_page (r : response) : Prop :=
  status_code r = 200%Z /\
  exists reviews,
    json_loads_text r = Some reviews /\
    ((exists e, feed_entry reviews = Raise e) \/
     (exists v, feed_entry reviews = Ok v /\ malformed_review_list v)).

(** The trace of a run that collects pages 1..n: each is requested, then
    saved. *)
Definition collected_trace (n : nat) : list event :=
  flat_map (fun page => [Requested (page + 1); SavedJson (page + 1)]) (seq 0 n).

(** The page numbers a trace asks for, in order. *)
Definition requested_pages (trace : list event) : list nat :=
  flat_map (fun ev => match ev with
                      | Requested page_no => [page_no]
                      | SavedJson _ => []
                      end) trace.

(** The page numbers whose raw payload a trace saves, in order. *)
Definition saved_pages (trace : list event) : list nat :=
  flat_map (fun ev => match ev with
                      | Requested _ => []
                      | SavedJson page_no => [page_no]
                      end) trace.

(** Every section of [review_sections] is a mapping under the review, and
    its rules can be resolved against it. *)
Definition sections_resolvable (fields : dict) : Prop :=
  forall name ks,
    In (name, ks) review_sections ->
    exists sec, dict_get name fields = Some (PDict sec) /\ resolvable ks sec.

(** What a rule reads from the value [v] found at its source key. *)
Definition rule_reads (key : rule) (v w : value) : Prop :=
  if String.eqb (nested_key key) "" then w = v
  else getitem v (nested_key key) = Ok w.

End AppStoreSpec.

Module PlayStoreSpec.
Import PlayStore.

(** Following the spec: the entries of a nested structure in pre-order, in
    iteration order, an entry before the entries nested under it. *)
Fixpoint entries_preorder (obj : value) : list (string * value) :=
  match obj with
  | PDict items =>
      flat_map (fun kv => kv :: entries_preorder (snd kv)) items
  | PList items => flat_map entries_preorder items
  | _ => []
  end.

(** Following the spec: an entry matches a key when it has that key and the
    search does not descend into its value. *)
Definition key_match (key : string) (kv : string * value) : bool :=
  String.eqb (fst kv) key && negb (is_dict_or_list (snd kv)).

(** Following the spec: the first key match encountered in pre-order, or
    absence. *)
Definition first_match_preorder (obj : value) (key : string) : value :=
  match find (key_match key) (entries_preorder obj) with
  | Some kv => snd kv
  | None => PNone
  end.

(** The sections of a comment that bear a comment. *)
Definition comment_bearing_sections (comment : value) : nat :=
  match comment with
  | PDict items =>
      List.length
        (filter (fun kv => String.eqb (fst kv) "userComment"
                           || String.eqb (fst kv) "developerComment")
                items)
  | _ => 0
  end.

(** The fields [extract_comments] always sets. *)
Definition fixed_fields : list string :=
  "review_id" :: "author_name" :: prepopulated_optional.

Definition user_side_optional : list string :=
  [ "android_os_version"; "app_version_code"; "app_version_name"; "device";
    "reviewer_language" ].

Definition dev_side_optional : list string :=
  [ "dev_comment_last_modified_seconds"; "dev_comment_last_modified_nanos";
    "dev_comment_text" ].

(** The fields the loop over the user comment can set. *)
Definition user_fields : list string :=
  "user_comment" :: "user_comment_last_modified_seconds"
    :: "user_comment_last_modified_nanos"
    :: map snd metadata_keys ++ map snd comments_keys.

(** The fields the loop over the developer comment can set. *)
Definition dev_fields : list string := dev_side_optional.

(** From [rd] to [rd'] only fields of [fs] were assigned: every other
    field is as it was, and no field was removed. *)
Definition only_sets (fs : list string) (rd rd' : dict) : Prop :=
  (forall f, ~ In f fs -> dict_get f rd' = dict_get f rd) /\
  (forall f, dict_get f rd <> None -> dict_get f rd' <> None).


(** A user or developer comment section that is a mapping whose
    ['lastModified'], when it has one, is a mapping. *)
Definition well_shaped_section (section : value) : Prop :=
  exists items,
    section = PDict items /\
    forall last_modified,
      dict_get "lastModified" items = Some last_modified ->
      exists l, last_modified = PDict l.

(** A comment whose sections are well shaped. *)
Definition well_shaped_comment (items : dict) : Prop :=
  (forall uc, dict_get "userComment" items = Some uc -> well_shaped_section uc) /\
  (forall dc, dict_get "developerComment" items = Some dc -> well_shaped_section dc).

(** Every assignment the loop over the user comment [uc] can make to the
    field [d] writes [x]. *)
Definition user_writes (uc : value) (d : string) (x : value) : Prop :=
  (d = "user_comment" -> getitem uc "text" = Ok x) /\
  (d = "user_comment_last_modified_seconds" ->
   forall lm sn, getitem uc "lastModified" = Ok lm ->
                 extract_timestamp lm = Ok sn -> fst sn = x) /\
  (d = "user_comment_last_modified_nanos" ->
   forall lm sn, getitem uc "lastModified" = Ok lm ->
                 extract_timestamp lm = Ok sn -> snd sn = x) /\
  (forall n, In n metadata_keys -> snd n = d -> extract_values uc (fst n) = x) /\
  (forall n, In n comments_keys -> snd n = d -> extract_values uc (fst n) = x).

(** Every assignment the loop over the developer comment [dc] can make to
    the field [d] writes [x]. *)
Definition dev_writes (dc : value) (d : string) (x : value) : Prop :=
  (d = "dev_comment_text" -> getitem dc "text" = Ok x) /\
  (d = "dev_comment_last_modified_seconds" ->
   forall lm sn, getitem dc "lastModified" = Ok lm ->
                 extract_timestamp lm = Ok sn -> fst sn = x) /\
  (d = "dev_comment_last_modified_nanos" ->
   forall lm sn, getitem dc "lastModified" = Ok lm ->
                 extract_timestamp lm = Ok sn -> snd sn = x).

(** Every assignment the loop over the developer comment [dc] can make to
    the field [d] writes [x]; there may be none. *)
Definition dev_assigns (dc : value) (d : string) (x : value) : Prop :=
  (d = "dev_comment_text" -> forall t, getitem dc "text" = Ok t -> t = x) /\
  (d = "dev_comment_last_modified_seconds" ->
   forall lm sn, getitem dc "lastModified" = Ok lm ->
                 extract_timestamp lm = Ok sn -> fst sn = x) /\
  (d = "dev_comment_last_modified_nanos" ->
   forall lm sn, getitem dc "lastModified" = Ok lm ->
                 extract_timestamp lm = Ok sn -> snd sn = x).

(** [d.get(k)]: the value at [k], None when the key is missing. *)
Definition get_or_none (k : string) (d : dict) : value :=
  match dict_get k d with
  | Some v => v
  | None => PNone
  end.

(** A review that is a mapping with ['reviewId'] before ['comments'], whose
    comments, a list, flatten to [recs] with that id and with the author
    name found before ['comments'], None when there is none before it. *)
Definition review_records (review : value) (recs : list dict) : Prop :=
  exists pre post cs rid,
    review = PDict (pre ++ ("comments", PList cs) :: post) /\
    NoDup (keys (pre ++ ("comments", PList cs) :: post)) /\
    dict_get "reviewId" pre = Some rid /\
    Forall2 (fun c r =>
               extract_comments c rid (get_or_none "authorName" pre) = Ok r)
            cs recs.

(** A review that is a mapping without ['comments']. *)
Definition review_without_comments (review : value) : Prop :=
  exists fields, review = PDict fields /\ dict_get "comments" fields = None.




End PlayStoreSpec.

(** ** Concrete payloads *)

Module Examples.
Import AppStore PlayStore.

Definition label (s : string) : value := PDict [("label", PStr s)].

(** An App Store review with every section of [review_sections]. *)
Definition apple_review (name rating : string) : value :=
  PDict
    [ ("author",
       PDict [ ("uri", label "https://itunes.apple.com/gb/reviews/id419600570");
               ("name", label name) ]);
      ("im:version", label "2.1");
      ("im:rating", label rating);
      ("id", label "6001");
      ("title", label "Works");
      ("content",
       PDict [ ("label", PStr "Does what it says");
               ("attributes", PDict [("type", PStr "text")]) ]);
      ("link",
       PDict [ ("attributes",
                PDict [ ("rel", PStr "related");
                        ("href", PStr "https://itunes.apple.com/gb/review?id=1") ]) ]);
      ("im:voteSum", label "0");
      ("im:voteCount", label "0");
      ("im:contentType",
       PDict [ ("attributes",
                PDict [ ("term", PStr "Application");
                        ("label", PStr "Application") ]) ]) ].

Definition apple_page (review_list : list value) : value :=
  PDict [ ("feed", PDict [ ("entry", PList review_list) ]) ].

(** The feed of a page past the last review: no ['entry']. *)
Definition apple_empty_page : value :=
  PDict [ ("feed", PDict [ ("title", label "iTunes Store: Customer Reviews") ]) ].

Definition ok_response (reviews : value) : response :=
  {| status_code := 200; json_loads_text := Some reviews |}.

Definition not_found : response :=
  {| status_code := 404; json_loads_text := None |}.

(** One page of one review, then the end of the data. *)
Definition api_one_page (review_id : Z) (page_no : nat) : response :=
  match page_no with
  | 1 => ok_response (apple_page [apple_review "name1" "5"])
  | 2 => ok_response apple_empty_page
  | _ => not_found
  end.

(** One page of one review, then a failing request. *)
Definition api_fails_on_page_2 (review_id : Z) (page_no : nat) : response :=
  match page_no with
  | 1 => ok_response (apple_page [apple_review "name1" "5"])
  | _ => not_found
  end.

(** The record of [apple_review "name1" "5"]. *)
Definition apple_record : dict :=
  Eval vm_compute in
    match flatten_review (apple_review "name1" "5") with
    | Ok review_flat => review_flat
    | Raise _ => []
    end.

(** The fields of a short review with the three sections. *)
Definition apple_short_fields : dict :=
  [ ("author", PDict [ ("name", label "name2") ]);
    ("im:rating", label "4");
    ("link", PDict [ ("attributes", PDict [ ("rel", PStr "related");
                                            ("href", PStr "https://itunes.apple.com") ]) ]);
    ("im:contentType", PDict []) ].

(** The fields of a review without the section link. *)
Definition apple_fields_without_link : dict :=
  [ ("author", PDict [ ("name", label "name2") ]);
    ("im:rating", label "4");
    ("im:contentType", PDict []) ].

(** Page 1 holds a review that flattens and one without the section link. *)
Definition api_broken_review (review_id : Z) (page_no : nat) : response :=
  match page_no with
  | 1 => ok_response (apple_page [apple_review "name1" "5";
                                  PDict apple_fields_without_link;
                                  apple_review "name3" "1"])
  | _ => ok_response apple_empty_page
  end.

(** Every page holds the same review. *)
Definition api_endless (review_id : Z) (page_no : nat) : response :=
  ok_response (apple_page [apple_review "name1" "5"]).

(** Page 1 is answered with status 200 and a body that is not JSON. *)
Definition api_not_json (review_id : Z) (page_no : nat) : response :=
  {| status_code := 200; json_loads_text := None |}.

(** Page 2 has an empty mapping in the place of the review list; pages 1
    and 3 hold one review each. *)
Definition api_empty_mapping_page (review_id : Z) (page_no : nat) : response :=
  match page_no with
  | 1 => ok_response (apple_page [apple_review "name1" "5"])
  | 2 => ok_response (PDict [ ("feed", PDict [ ("entry", PDict []) ]) ])
  | 3 => ok_response (apple_page [apple_review "name1" "5"])
  | _ => not_found
  end.

(** An author section whose ['uri'] has no ['label']. *)
Definition author_without_label : dict :=
  [ ("uri", PDict [ ("href", PStr "https://itunes.apple.com") ]);
    ("name", label "name1") ].

Definition user_comment_great : value :=
  PDict [ ("text", PStr "great");
          ("lastModified", PDict [ ("seconds", PStr "1596000000");
                                   ("nanos", PInt 5000) ]);
          ("starRating", PInt 5) ].

Definition dev_comment_thanks : value :=
  PDict [ ("text", PStr "thanks");
          ("lastModified", PDict [ ("seconds", PStr "1596100000");
                                   ("nanos", PInt 0) ]) ].

Definition play_review (fields : list (string * value)) : value :=
  PDict [ ("reviews", PList [ PDict fields ]) ].

(** One review whose single comment holds both sections. *)
Definition play_both_in_one_comment : value :=
  play_review
    [ ("reviewId", PStr "gp:1");
      ("authorName", PStr "Ann");
      ("comments",
       PList [ PDict [ ("userComment", user_comment_great);
                       ("developerComment", dev_comment_thanks) ] ]) ].

Definition play_two_comments : list value :=
  [ PDict [ ("userComment", user_comment_great) ];
    PDict [ ("developerComment", dev_comment_thanks) ] ].

Definition play_review_two_comments : value :=
  play_review
    [ ("reviewId", PStr "gp:1");
      ("authorName", PStr "Ann");
      ("comments", PList play_two_comments) ].

(** The records of [play_review_two_comments]. *)
Definition play_two_records : list dict :=
  Eval vm_compute in
    match process_json play_review_two_comments with
    | Ok all_review_data => all_review_data
    | Raise _ => []
    end.

(** Two comments, the second with a number in the place of the user
    comment section. *)
Definition play_comments_second_bad : list value :=
  [ PDict [ ("userComment", user_comment_great) ];
    PDict [ ("userComment", PInt 3) ] ].

Definition play_review_second_comment_bad : value :=
  play_review
    [ ("reviewId", PStr "gp:1");
      ("authorName", PStr "Ann");
      ("comments", PList play_comments_second_bad) ].

Definition review_ann : value :=
  PDict [ ("reviewId", PStr "gp:1");
          ("authorName", PStr "Ann");
          ("comments", PList [ PDict [ ("userComment", user_comment_great) ] ]) ].

Definition fields_without_id : dict :=
  [ ("comments", PList [ PDict [ ("userComment", user_comment_great) ] ]) ].

(** Two reviews, the second without ['reviewId'] and ['authorName']. *)
Definition play_second_without_id : value :=
  PDict [ ("reviews", PList [ review_ann; PDict fields_without_id ]) ].

(** The records of [play_second_without_id]. *)
Definition play_second_records : list dict :=
  Eval vm_compute in
    match process_json play_second_without_id with
    | Ok all_review_data => all_review_data
    | Raise _ => []
    end.



(** A review whose ['authorName'] comes after its ['comments']. *)
Definition review_author_last : value :=
  PDict [ ("reviewId", PStr "gp:2");
          ("comments", PList [ PDict [ ("developerComment", dev_comment_thanks) ] ]);
          ("authorName", PStr "Bob") ].

Definition play_two_reviews : value :=
  PDict [ ("reviews", PList [ review_ann; review_author_last ]) ].

(** The records of [play_two_reviews], by review. *)
Definition play_two_reviews_records : list (list dict) :=
  Eval vm_compute in
    [ match extract_comments (PDict [ ("userComment", user_comment_great) ])
                             (PStr "gp:1") (PStr "Ann") with
      | Ok r => [r]
      | Raise _ => []
      end;
      match extract_comments (PDict [ ("developerComment", dev_comment_thanks) ])
                             (PStr "gp:2") PNone with
      | Ok r => [r]
      | Raise _ => []
      end ].

(** A first review whose ['comments'] come before its ['reviewId']. *)
Definition play_comments_before_id : value :=
  PDict [ ("reviews",
           PList [ PDict [ ("comments",
                            PList [ PDict [ ("userComment", user_comment_great) ] ]);
                           ("reviewId", PStr "gp:3") ] ]) ].

(** Two reviews; the second comment of the second review has a number in
    the place of the user comment section. *)
Definition play_bad_second_review : value :=
  PDict [ ("reviews",
           PList [ review_ann;
                   PDict [ ("reviewId", PStr "gp:2");
                           ("comments",
                            PList [ PDict [ ("developerComment", dev_comment_thanks) ];
                                    PDict [ ("userComment", PInt 3) ] ]) ] ]) ].

(** A user comment with device metadata. *)
Definition user_comment_with_device : dict :=
  [ ("text", PStr "ok");
    ("device", PStr "walleye");
    ("deviceMetadata", PDict [ ("productName", PStr "Pixel 2");
                               ("ramMb", PInt 4096) ]) ].

(** The key ['device'] at two depths, and with a mapping as value. *)
Definition nested_device : value :=
  PDict [ ("deviceMetadata",
           PDict [ ("device", PDict [ ("productName", PStr "walleye") ]);
                   ("ramMb", PInt 4096) ]);
          ("ramMb", PInt 1) ].

End Examples.

(** ** Facts about the Python layer *)

Module PyFacts.

(** Induction on a value, with the hypothesis for every item of a list and
    every value of a dict. *)
Section ValueInduction.
Variable P : value -> Prop.
Hypothesis HNone : P PNone.
Hypothesis HBool : forall b, P (PBool b).
Hypothesis HInt : forall n, P (PInt n).
Hypothesis HFloat : forall m e, P (PFloat m e).
Hypothesis HStr : forall s, P (PStr s).
Hypothesis HList : forall items, Forall P items -> P (PList items).
Hypothesis HDict :
  forall items, Forall (fun kv => P (snd kv)) items -> P (PDict items).

Fixpoint value_nested_ind (v : value) : P v :=
  match v with
  | PNone => HNone
  | PBool b => HBool b
  | PInt n => HInt n
  | PFloat m e => HFloat m e
  | PStr s => HStr s
  | PList items =>
      HList items
        ((fix all (l : list value) : Forall P l :=
            match l with
            | [] => Forall_nil P
            | x :: rest => Forall_cons x (value_nested_ind x) (all rest)
            end) items)
  | PDict items =>
      HDict items
        ((fix all (l : list (string * value))
            : Forall (fun kv => P (snd kv)) l :=
            match l with
            | [] => Forall_nil _
            | kv :: rest =>
                Forall_cons kv (value_nested_ind (snd kv)) (all rest)
            end) items)
  end.
End ValueInduction.

Lemma dict_get_set_same (k : string) (v : value) (d : dict) :
  dict_get k (dict_set k v d) = Some v.
Proof.
  induction d as [|[k' v'] rest IH]; simpl.
  - now rewrite String.eqb_refl.
  - destruct (String.eqb k' k) eqn:E; simpl; rewrite E; auto.
Qed.

Lemma dict_get_set_other (k k' : string) (v : value) (d : dict) :
  k <> k' -> dict_get k' (dict_set k v d) = dict_get k' d.
Proof.
  intros Hne. induction d as [|[k0 v0] rest IH]; simpl.
  - destruct (String.eqb k k') eqn:E; auto.
    apply String.eqb_eq in E. contradiction.
  - destruct (String.eqb k0 k) eqn:E; simpl.
    + apply String.eqb_eq in E. subst k0.
      destruct (String.eqb k k') eqn:E'; auto.
      apply String.eqb_eq in E'. contradiction.
    + now rewrite IH.
Qed.

Lemma keys_dict_set (k : string) (v : value) (d : dict) (x : string) :
  In x (keys (dict_set k v d)) <-> x = k \/ In x (keys d).
Proof.
  induction d as [|[k' v'] rest IH]; simpl.
  - intuition.
  - destruct (String.eqb k' k) eqn:E; simpl.
    + apply String.eqb_eq in E. subst. intuition.
    + unfold keys in IH. rewrite IH. intuition.
Qed.

Lemma NoDup_dict_set (k : string) (v : value) (d : dict) :
  NoDup (keys d) -> NoDup (keys (dict_set k v d)).
Proof.
  induction d as [|[k' v'] rest IH]; simpl; intros Hnd.
  - constructor; [intros [] | constructor].
  - inversion Hnd as [|? ? Hnotin Hrest]; subst.
    destruct (String.eqb k' k) eqn:E; simpl.
    + constructor; assumption.
    + constructor; [|now apply IH].
      intros Hin. apply keys_dict_set in Hin. destruct Hin as [->|Hin].
      * now rewrite String.eqb_refl in E.
      * now apply Hnotin.
Qed.

Lemma dict_get_some_in (k : string) (d : dict) (v : value) :
  dict_get k d = Some v -> In k (keys d).
Proof.
  induction d as [|[k' v'] rest IH]; simpl; [discriminate|].
  destruct (String.eqb k' k) eqn:E.
  - apply String.eqb_eq in E. auto.
  - auto.
Qed.

Lemma in_keys_dict_get (k : string) (d : dict) :
  In k (keys d) -> exists v, dict_get k d = Some v.
Proof.
  induction d as [|[k' v'] rest IH]; simpl; [intros []|].
  destruct (String.eqb k' k) eqn:E; [eauto|].
  intros [->|Hin]; [now rewrite String.eqb_refl in E | auto].
Qed.

Lemma dict_get_none_not_in (k : string) (d : dict) :
  dict_get k d = None -> ~ In k (keys d).
Proof.
  intros Hg Hin. apply in_keys_dict_get in Hin. destruct Hin as [v Hv].
  congruence.
Qed.

Lemma Ok_inj {A : Type} (a b : A) : Ok a = Ok b -> a = b.
Proof. intros H. now inversion H. Qed.

Lemma iter_dict (items : dict) : iter (PDict items) = Ok (map PStr (keys items)).
Proof. unfold keys. simpl. now rewrite map_map. Qed.

(** A loop keeps a relation between its first and last state that every
    step keeps. *)
Lemma foldM_preserves {S A : Type} (R : S -> S -> Prop)
      (body : S -> A -> result S) (l : list A) :
  (forall s, R s s) ->
  (forall s1 s2 s3, R s1 s2 -> R s2 s3 -> R s1 s3) ->
  (forall s a s', In a l -> body s a = Ok s' -> R s s') ->
  forall s s', foldM body l s = Ok s' -> R s s'.
Proof.
  intros Hrefl Htrans. induction l as [|a rest IH]; simpl; intros Hstep s s' H.
  - inversion H. apply Hrefl.
  - destruct (body s a) as [s1|e] eqn:E; [|discriminate].
    apply Htrans with s1; [apply (Hstep s a); auto|].
    apply IH; auto. intros. eapply Hstep; eauto.
Qed.

(** A loop raises when one of its steps raises whatever the state. *)
Lemma foldM_raises {S A : Type} (body : S -> A -> result S) (l : list A)
      (a : A) :
  In a l ->
  (forall s, exists e, body s a = Raise e) ->
  forall s, exists e, foldM body l s = Raise e.
Proof.
  intros Hin Hbad. induction l as [|a0 rest IH]; [destruct Hin|].
  intros s. simpl. destruct (body s a0) as [s1|e] eqn:E; [|eauto].
  destruct Hin as [->|Hin].
  - destruct (Hbad s) as [e He]. congruence.
  - apply IH, Hin.
Qed.

(** Steps that do nothing on the items of [l]. *)
Lemma foldM_skip {S A : Type} (body : S -> A -> result S) (l : list A) (s : S) :
  (forall a s, In a l -> body s a = Ok s) -> foldM body l s = Ok s.
Proof.
  induction l as [|a rest IH]; simpl; intros H; [reflexivity|].
  rewrite H by auto. apply IH. intros. apply H. auto.
Qed.

Lemma foldM_app {S A : Type} (body : S -> A -> result S) (l1 l2 : list A) (s : S) :
  foldM body (l1 ++ l2) s = bind (foldM body l1 s) (foldM body l2).
Proof.
  revert s. induction l1 as [|a rest IH]; simpl; intros s; [reflexivity|].
  destruct (body s a); simpl; auto.
Qed.

End PyFacts.

(** ** extract_matches *)

Module AppStoreFacts.
Import AppStore AppStoreSpec PyFacts Examples.

(** One rule against an entry that is a key of the section. *)
Lemma extract_match_entry (S : dict) (e : string) (acc : dict) (key : rule) :
  In e (keys S) ->
  (forall v, dict_get (source_key key) S = Some v ->
             nested_key key <> "" ->
             exists w, getitem v (nested_key key) = Ok w) ->
  exists r,
    extract_match (PDict S) (PStr e) acc key = Ok r /\
    (NoDup (keys acc) -> NoDup (keys r)) /\
    forall d, In d (keys r) <->
              In d (keys acc) \/ (source_key key = e /\ dest key = d).
Proof.
  intros Hin Hres. unfold extract_match. simpl.
  destruct (String.eqb e (source_key key)) eqn:E.
  - apply String.eqb_eq in E. subst e.
    destruct (in_keys_dict_get _ _ Hin) as [v Hv]. rewrite Hv. simpl.
    destruct (String.eqb (nested_key key) "") eqn:En; simpl.
    + eexists. split; [reflexivity|]. split; [apply NoDup_dict_set|].
      intros d. rewrite keys_dict_set. intuition.
    + assert (Hne : nested_key key <> "").
      { intros Heq. rewrite Heq in En. discriminate. }
      destruct (Hres v Hv Hne) as [w Hw]. rewrite Hw. simpl.
      eexists. split; [reflexivity|]. split; [apply NoDup_dict_set|].
      intros d. rewrite keys_dict_set. intuition.
  - exists acc. split; [reflexivity|]. split; [auto|].
    intros d. split; [auto|]. intros [H|[H _]]; [exact H|].
    subst e. now rewrite String.eqb_refl in E.
Qed.

(** The inner loop: all the rules against one entry. *)
Lemma extract_match_rules (S : dict) (e : string) (ks : list rule) :
  In e (keys S) ->
  resolvable ks S ->
  forall acc, exists r,
    foldM (extract_match (PDict S) (PStr e)) ks acc = Ok r /\
    (NoDup (keys acc) -> NoDup (keys r)) /\
    forall d, In d (keys r) <->
              In d (keys acc) \/
              exists key, In key ks /\ source_key key = e /\ dest key = d.
Proof.
  intros Hin. induction ks as [|key rest IH]; intros Hres acc.
  - exists acc. simpl. split; [reflexivity|]. split; [auto|].
    intros d. split; [auto|]. intros [H|(k & [] & _)]. exact H.
  - destruct (extract_match_entry S e acc key Hin) as (r1 & H1 & Hnd1 & Hk1).
    { intros v Hv Hne. apply (Hres key v); simpl; auto. }
    destruct (IH (fun k v Hk => Hres k v (or_intror Hk)) r1)
      as (r & H2 & Hnd2 & Hk2).
    exists r. simpl. rewrite H1. split; [exact H2|]. split; [auto|].
    intros d. rewrite Hk2, Hk1. split.
    + intros [[H|[Hs Hd]]|(k & Hk & Hs & Hd)].
      * auto.
      * right. exists key. simpl. auto.
      * right. exists k. simpl. auto.
    + intros [H|(k & [->|Hk] & Hs & Hd)].
      * auto.
      * left. right. auto.
      * right. exists k. auto.
Qed.

(** The outer loop: the entries [es] of the section. *)
Lemma extract_match_entries (M : list rule) (S : dict) (es : list string) :
  incl es (keys S) ->
  resolvable M S ->
  forall acc, exists r,
    foldM (fun review_extract entry =>
             foldM (extract_match (PDict S) entry) M review_extract)
          (map PStr es) acc = Ok r /\
    (NoDup (keys acc) -> NoDup (keys r)) /\
    forall d, In d (keys r) <->
              In d (keys acc) \/
              exists key, In key M /\ In (source_key key) es /\ dest key = d.
Proof.
  intros Hincl Hres. induction es as [|e rest IH]; intros acc.
  - exists acc. simpl. split; [reflexivity|]. split; [auto|].
    intros d. split; [auto|]. intros [H|(k & _ & [] & _)]. exact H.
  - assert (He : In e (keys S)) by (apply Hincl; simpl; auto).
    destruct (extract_match_rules S e M He Hres acc) as (r1 & H1 & Hnd1 & Hk1).
    destruct IH with (acc := r1) as (r & H2 & Hnd2 & Hk2).
    { intros x Hx. apply Hincl. simpl. auto. }
    exists r. simpl. rewrite H1. split; [exact H2|]. split; [auto|].
    intros d. rewrite Hk2, Hk1. split.
    + intros [[H|(k & Hk & Hs & Hd)]|(k & Hk & Hs & Hd)].
      * auto.
      * right. exists k. simpl. auto.
      * right. exists k. simpl. auto.
    + intros [H|(k & Hk & [Hs|Hs] & Hd)].
      * auto.
      * left. right. exists k. auto.
      * right. exists k. auto.
Qed.

(** C1 (as amended).  For every extraction map M and every section S in
    which each rule with a nested key finds that key under S[sourceKey],
    [extract_matches(M, S)] returns a record whose keys are exactly the
    destination fields of the rules whose source key is a key of S; no
    field appears twice.  (Distinct source keys are not needed.) *)
Theorem extract_matches_keys (M : list rule) (S : dict) :
  resolvable M S ->
  exists r,
    extract_matches M (PDict S) = Ok r /\
    NoDup (keys r) /\
    forall d, In d (keys r) <->
              exists key, In key M /\ In (source_key key) (keys S) /\ dest key = d.
Proof.
  intros Hres. unfold extract_matches. rewrite iter_dict. simpl.
  destruct (extract_match_entries M S (keys S) (incl_refl _) Hres [])
    as (r & Hr & Hnd & Hk).
  exists r. split; [exact Hr|]. split; [apply Hnd; constructor|].
  intros d. rewrite Hk. simpl. intuition.
Qed.

Lemma extract_matches_keys_witness :
  resolvable author_keys [("name", label "name1"); ("rating", PInt 5)] /\
  exists r,
    extract_matches author_keys
                    (PDict [("name", label "name1"); ("rating", PInt 5)]) = Ok r /\
    NoDup (keys r) /\
    forall d, In d (keys r) <->
              exists key, In key author_keys /\
                          In (source_key key) ["name"; "rating"] /\ dest key = d.
Proof.
  assert (H : resolvable author_keys [("name", label "name1"); ("rating", PInt 5)]).
  { intros key v [<-|[<-|[]]] Hv _; simpl in Hv; inversion Hv; subst.
    exists (PStr "name1"). reflexivity. }
  split; [exact H|]. exact (extract_matches_keys _ _ H).
Defined.

(** C1 as stated fails: a source key that is present with a nested key that
    cannot be read makes [extract_matches] raise instead of returning a
    record. *)
Lemma extract_matches_keys_counterexample :
  NoDup (map source_key other_keys) /\
  extract_matches other_keys (PDict [("id", PStr "6001")]) = Raise TypeError /\
  forall r, extract_matches other_keys (PDict [("id", PStr "6001")]) <> Ok r.
Proof.
  split; [|split].
  - repeat constructor; simpl; intuition discriminate.
  - reflexivity.
  - intros r H. discriminate H.
Qed.

(** C6 (as amended).  When a rule with a non-empty nested key has its
    source key in the section and the nested key cannot be read under
    section[sourceKey], [extract_matches] raises and returns no record. *)
Theorem extract_matches_nested_key_missing
        (M : list rule) (S : dict) (key : rule) (v : value) :
  In key M ->
  nested_key key <> "" ->
  dict_get (source_key key) S = Some v ->
  (forall w, getitem v (nested_key key) <> Ok w) ->
  exists e, extract_matches M (PDict S) = Raise e.
Proof.
  intros Hin Hne Hget Hmiss. unfold extract_matches. rewrite iter_dict. simpl.
  apply foldM_raises with (a := PStr (source_key key)).
  - apply in_map. eapply dict_get_some_in; eauto.
  - intros acc. apply foldM_raises with (a := key); [exact Hin|].
    intros s. unfold extract_match. simpl. rewrite String.eqb_refl.
    destruct (String.eqb (nested_key key) "") eqn:E.
    { apply String.eqb_eq in E. contradiction. }
    rewrite Hget. simpl.
    destruct (getitem v (nested_key key)) as [w|e] eqn:Ew.
    + exfalso. apply (Hmiss w). reflexivity.
    + simpl. exists e. reflexivity.
Qed.

Lemma extract_matches_nested_key_missing_witness :
  In ("uri", "label", "author_uri") author_keys /\
  dict_get "uri" author_without_label
    = Some (PDict [("href", PStr "https://itunes.apple.com")]) /\
  exists e, extract_matches author_keys (PDict author_without_label) = Raise e.
Proof.
  split; [simpl; auto|]. split; [reflexivity|].
  apply (extract_matches_nested_key_missing
           author_keys author_without_label ("uri", "label", "author_uri")
           (PDict [("href", PStr "https://itunes.apple.com")])).
  - simpl. auto.
  - discriminate.
  - reflexivity.
  - intros w H. discriminate H.
Defined.

(** C6 as stated fails: the missing nested key is no silent gap in the
    record, the call raises KeyError. *)
Lemma extract_matches_silent_gap_counterexample :
  dict_get "uri" author_without_label
    = Some (PDict [("href", PStr "https://itunes.apple.com")]) /\
  getitem (PDict [("href", PStr "https://itunes.apple.com")]) "label"
    = Raise KeyError /\
  extract_matches author_keys (PDict author_without_label) = Raise KeyError.
Proof. repeat split. Qed.

(** ** get_and_collect_reviews *)

Lemma process_reviews_loop_flatten_all (review_list : list value) :
  forall acc recs,
    foldM (fun recs review =>
             review_flat <- flatten_review review ;; Ok (recs ++ [review_flat]))
          review_list acc = Ok recs ->
    forall all_reviews,
      process_reviews_loop (all_reviews ++ acc) review_list
      = (all_reviews ++ recs, None).
Proof.
  induction review_list as [|review rest IH]; simpl; intros acc recs H all_reviews.
  - inversion H. reflexivity.
  - destruct (flatten_review review) as [review_flat|e]; simpl in H;
      [|discriminate].
    rewrite <- app_assoc. apply IH. exact H.
Qed.

Lemma process_reviews_flatten_all (review_list : list value) (recs : list dict)
      (all_reviews : list dict) :
  flatten_all review_list = Ok recs ->
  process_reviews all_reviews (PList review_list) = (all_reviews ++ recs, None).
Proof.
  intros H. unfold process_reviews. simpl.
  rewrite <- (app_nil_r all_reviews) at 1.
  now apply process_reviews_loop_flatten_all.
Qed.

(** No rule of [other_keys] has a one-character source key. *)
Lemma other_keys_skip_char (section : value) (c : ascii) (acc : dict) :
  foldM (extract_match section (PStr (String c EmptyString))) other_keys acc
  = Ok acc.
Proof.
  unfold other_keys, extract_match, source_key. simpl.
  repeat match goal with
         | |- context [Ascii.eqb ?a ?b] => destruct (Ascii.eqb a b)
         end; reflexivity.
Qed.

(** A str in the place of a review: nothing matches its characters, and
    the str cannot be subscripted by a section name. *)
Lemma flatten_review_str (s : string) : flatten_review (PStr s) = Raise TypeError.
Proof.
  unfold flatten_review, extract_matches. simpl.
  rewrite foldM_skip; [reflexivity|].
  intros a acc Ha. unfold chars in Ha. apply in_map_iff in Ha.
  destruct Ha as (c & <- & _). apply other_keys_skip_char.
Qed.

Lemma process_reviews_malformed (v : value) (all_reviews : list dict) :
  malformed_review_list v ->
  exists e, process_reviews all_reviews v = (all_reviews, Some e).
Proof.
  destruct v as [| | | |s|items|items]; simpl; intros H;
    try (exists TypeError; reflexivity).
  - destruct s as [|c s]; [contradiction H; reflexivity|].
    exists TypeError. unfold process_reviews. simpl.
    now rewrite flatten_review_str.
  - destruct items as [|review rest]; [contradiction|].
    destruct H as [e He]. exists e. unfold process_reviews. simpl.
    now rewrite He.
  - destruct items as [|[k v] rest]; [contradiction H; reflexivity|].
    exists TypeError. unfold process_reviews. simpl.
    now rewrite flatten_review_str.
Qed.

Section Run.
Variable requests_get : Z -> nat -> response.
Variable review_id : Z.

(** After a run of well-formed pages the loop is where it would be had it
    started behind them with their records. *)
Lemma pages_loop_well_formed (recs : list (list dict)) :
  forall first no_of_pages all_reviews trace,
    (forall i, i < List.length recs ->
               well_formed_page (requests_get review_id (first + i + 1))
                                (nth i recs [])) ->
    List.length recs <= no_of_pages ->
    pages_loop requests_get review_id (seq first no_of_pages) all_reviews trace
    = pages_loop requests_get review_id
                 (seq (first + List.length recs) (no_of_pages - List.length recs))
                 (all_reviews ++ List.concat recs)
                 (trace ++ flat_map (fun page => [Requested (page + 1);
                                                  SavedJson (page + 1)])
                                    (seq first (List.length recs))).
Proof.
  induction recs as [|r0 recs IH]; intros first n all_reviews trace Hwf Hle.
  - simpl. now rewrite Nat.add_0_r, Nat.sub_0_r, !app_nil_r.
  - simpl in Hle. destruct n as [|n]; [lia|].
    destruct (Hwf 0) as (Hs & reviews & rl & Hj & Hfe & Hfl); [simpl; lia|].
    rewrite Nat.add_0_r in Hs, Hj. simpl in Hfl.
    cbn [seq pages_loop]. unfold get_reviews. rewrite Hs. simpl Z.eqb. cbv iota.
    rewrite Hj, Hfe. rewrite (process_reviews_flatten_all _ _ _ Hfl).
    rewrite IH.
    + cbn [List.length List.concat flat_map seq].
      replace (S first + List.length recs) with (first + S (List.length recs)) by lia.
      replace (S n - S (List.length recs)) with (n - List.length recs) by lia.
      f_equal.
      * now rewrite <- app_assoc.
      * rewrite <- !app_assoc. reflexivity.
    + intros i Hi.
      replace (S first + i + 1) with (first + S i + 1) by lia.
      apply (Hwf (S i)). simpl. lia.
    + lia.
Qed.

(** C2 (as amended).  When the API yields N well-formed pages (status 200,
    [feed.entry] a list all of whose reviews flatten) and then a page,
    answered with status 200, whose review list is missing
    ([reviews['feed']['entry']] raises) or is a scalar, a non-empty str or
    mapping, or a list whose first review does not flatten, and more than N
    pages are asked for, [get_and_collect_reviews] requests pages 1..N+1 in
    order, saves and flattens the first N, stops at page N+1 (whose payload
    is saved only when its review list is present), and returns exactly the
    records of the first N pages, in page order then in-page order. *)
Theorem collect_stops_at_end_of_data (no_of_pages : nat) (recs : list (list dict)) :
  (forall i, i < List.length recs ->
             well_formed_page (requests_get review_id (i + 1)) (nth i recs [])) ->
  end_of_data_page (requests_get review_id (List.length recs + 1)) ->
  List.length recs < no_of_pages ->
  exists saved,
    (saved = [] \/ saved = [SavedJson (List.length recs + 1)]) /\
    get_and_collect_reviews requests_get review_id no_of_pages
    = (collected_trace (List.length recs)
         ++ Requested (List.length recs + 1) :: saved,
       Ok (Some (List.concat recs))).
Proof.
  intros Hwf Hend Hlt. unfold get_and_collect_reviews.
  rewrite (pages_loop_well_formed recs); [|exact Hwf|lia].
  destruct (no_of_pages - List.length recs) as [|m] eqn:Em; [lia|].
  destruct Hend as (Hs & reviews & Hj & Hbad).
  cbn [seq pages_loop]. unfold get_reviews. simpl plus.
  rewrite Hs. simpl Z.eqb. cbv iota. rewrite Hj.
  destruct Hbad as [[e He]|(v & Hv & Hmal)].
  - exists []. split; [auto|]. rewrite He. reflexivity.
  - exists [SavedJson (List.length recs + 1)]. split; [auto|].
    rewrite Hv.
    destruct (process_reviews_malformed v ([] ++ List.concat recs) Hmal)
      as [e He].
    rewrite He. simpl. now rewrite <- app_assoc.
Qed.

(** C3 (as amended).  When the request for page k fails (any status but
    200) after pages 1..k-1 were collected, [get_and_collect_reviews]
    returns None, for k = 1 and for k > 1 alike: the records of the
    earlier pages are not returned (their raw payloads were saved). *)
Theorem collect_returns_none_on_failed_request
        (no_of_pages : nat) (recs : list (list dict)) :
  (forall i, i < List.length recs ->
             well_formed_page (requests_get review_id (i + 1)) (nth i recs [])) ->
  status_code (requests_get review_id (List.length recs + 1)) <> 200%Z ->
  List.length recs < no_of_pages ->
  get_and_collect_reviews requests_get review_id no_of_pages
  = (collected_trace (List.length recs) ++ [Requested (List.length recs + 1)],
     Ok None).
Proof.
  intros Hwf Hfail Hlt. unfold get_and_collect_reviews.
  rewrite (pages_loop_well_formed recs); [|exact Hwf|lia].
  destruct (no_of_pages - List.length recs) as [|m] eqn:Em; [lia|].
  cbn [seq pages_loop]. unfold get_reviews. simpl plus.
  destruct (Z.eqb_spec (status_code (requests_get review_id
                                                  (List.length recs + 1))) 200).
  - contradiction.
  - reflexivity.
Qed.

End Run.

Lemma api_page_1_well_formed (api : Z -> nat -> response) :
  api 1%Z 1 = ok_response (apple_page [apple_review "name1" "5"]) ->
  forall i, i < List.length [[apple_record]] ->
            well_formed_page (api 1%Z (i + 1)) (nth i [[apple_record]] []).
Proof.
  intros Hpage i Hi. simpl in Hi. assert (i = 0) as -> by lia.
  simpl. rewrite Hpage. split; [reflexivity|].
  exists (apple_page [apple_review "name1" "5"]), [apple_review "name1" "5"].
  repeat split.
Qed.

Lemma collect_stops_at_end_of_data_witness :
  well_formed_page (api_one_page 1%Z 1) [apple_record] /\
  end_of_data_page (api_one_page 1%Z 2) /\
  exists saved,
    (saved = [] \/ saved = [SavedJson 2]) /\
    get_and_collect_reviews api_one_page 1%Z 3
    = ([Requested 1; SavedJson 1; Requested 2] ++ saved, Ok (Some [apple_record])).
Proof.
  split; [|split].
  - apply (api_page_1_well_formed api_one_page eq_refl 0). simpl. lia.
  - split; [reflexivity|]. exists apple_empty_page. split; [reflexivity|].
    left. exists KeyError. reflexivity.
  - apply (collect_stops_at_end_of_data api_one_page 1%Z 3 [[apple_record]]).
    + apply api_page_1_well_formed. reflexivity.
    + split; [reflexivity|]. exists apple_empty_page. split; [reflexivity|].
      left. exists KeyError. reflexivity.
    + simpl. lia.
Defined.

(** C2 as stated fails: page 1 is well-formed and page 2 has a mapping, not
    a list, at [feed.entry]; the mapping is empty, so the loop does not stop
    there: page 3 is requested and its record is returned after that of
    page 1. *)
Lemma collect_stops_at_malformed_page_counterexample :
  well_formed_page (api_empty_mapping_page 1%Z 1) [apple_record] /\
  (exists reviews,
      json_loads_text (api_empty_mapping_page 1%Z 2) = Some reviews /\
      feed_entry reviews = Ok (PDict [])) /\
  get_and_collect_reviews api_empty_mapping_page 1%Z 3
  = ([Requested 1; SavedJson 1; Requested 2; SavedJson 2;
      Requested 3; SavedJson 3],
     Ok (Some [apple_record; apple_record])) /\
  snd (get_and_collect_reviews api_empty_mapping_page 1%Z 3)
    <> Ok (Some [apple_record]).
Proof.
  split; [|split; [|split]].
  - apply (api_page_1_well_formed api_empty_mapping_page eq_refl 0). simpl. lia.
  - eexists. split; reflexivity.
  - reflexivity.
  - intros H. discriminate H.
Qed.

Lemma collect_returns_none_on_failed_request_witness :
  well_formed_page (api_fails_on_page_2 1%Z 1) [apple_record] /\
  status_code (api_fails_on_page_2 1%Z 2) <> 200%Z /\
  get_and_collect_reviews api_fails_on_page_2 1%Z 2
  = ([Requested 1; SavedJson 1; Requested 2], Ok None).
Proof.
  split; [|split].
  - apply (api_page_1_well_formed api_fails_on_page_2 eq_refl 0). simpl. lia.
  - discriminate.
  - apply (collect_returns_none_on_failed_request
             api_fails_on_page_2 1%Z 2 [[apple_record]]).
    + apply api_page_1_well_formed. reflexivity.
    + discriminate.
    + simpl. lia.
Defined.

(** C3 as stated fails: page 1 is collected, the request for page 2 fails,
    and the run returns None instead of the record of page 1. *)
Lemma collect_keeps_earlier_pages_counterexample :
  well_formed_page (api_fails_on_page_2 1%Z 1) [apple_record] /\
  status_code (api_fails_on_page_2 1%Z 2) = 404%Z /\
  snd (get_and_collect_reviews api_fails_on_page_2 1%Z 2) = Ok None /\
  snd (get_and_collect_reviews api_fails_on_page_2 1%Z 2)
    <> Ok (Some [apple_record]).
Proof.
  split; [|split; [|split]].
  - apply (api_page_1_well_formed api_fails_on_page_2 eq_refl 0). simpl. lia.
  - reflexivity.
  - reflexivity.
  - intros H. discriminate H.
Qed.

End AppStoreFacts.

(** ** extract_values *)

Module ExtractValuesFacts.
Import PlayStore PlayStoreSpec PyFacts Examples.

Lemma extract_list_cons (key : string) (item : value) (rest arr : list value) :
  extract (PList (item :: rest)) arr key
  = extract (PList rest) (extract item arr key) key.
Proof. reflexivity. Qed.

Lemma extract_dict_cons (key k : string) (v : value) (rest : dict)
      (arr : list value) :
  extract (PDict ((k, v) :: rest)) arr key
  = if is_dict_or_list v then extract (PDict rest) (extract v arr key) key
    else if String.eqb k key then arr ++ [v]
         else extract (PDict rest) arr key.
Proof. reflexivity. Qed.

(** [extract] only appends to [arr]. *)
Lemma extract_appends (key : string) (obj : value) :
  forall arr, extract obj arr key = arr ++ extract obj [] key.
Proof.
  induction obj as [| | | | |items IH|items IH] using value_nested_ind;
    intros arr; try (simpl; now rewrite app_nil_r).
  - revert arr. induction IH as [|item rest Hitem _ IHrest]; intros arr.
    + simpl. now rewrite app_nil_r.
    + rewrite !extract_list_cons.
      rewrite (IHrest (extract item arr key)).
      rewrite (IHrest (extract item [] key)).
      rewrite (Hitem arr). now rewrite app_assoc.
  - revert arr. induction IH as [|[k v] rest Hv _ IHrest]; intros arr.
    + simpl. now rewrite app_nil_r.
    + simpl in Hv. rewrite !extract_dict_cons. destruct (is_dict_or_list v).
      * rewrite (IHrest (extract v arr key)).
        rewrite (IHrest (extract v [] key)).
        rewrite (Hv arr). now rewrite app_assoc.
      * destruct (String.eqb k key); [reflexivity|apply IHrest].
Qed.

Lemma entries_preorder_scalar (v : value) :
  is_dict_or_list v = false -> entries_preorder v = [].
Proof. destruct v; simpl; intros H; try reflexivity; discriminate. Qed.

Lemma hd_error_app {A : Type} (l1 l2 : list A) :
  hd_error (l1 ++ l2)
  = match hd_error l1 with Some x => Some x | None => hd_error l2 end.
Proof. destruct l1; reflexivity. Qed.

Lemma find_app {A : Type} (p : A -> bool) (l1 l2 : list A) :
  find p (l1 ++ l2)
  = match find p l1 with Some x => Some x | None => find p l2 end.
Proof.
  induction l1 as [|a rest IH]; simpl; [reflexivity|].
  destruct (p a); auto.
Qed.

(** The first value [extract] appends is the first key match of the
    pre-order walk. *)
Lemma extract_first (key : string) (obj : value) :
  hd_error (extract obj [] key)
  = option_map snd (find (key_match key) (entries_preorder obj)).
Proof.
  induction obj as [| | | | |items IH|items IH] using value_nested_ind;
    try reflexivity.
  - induction IH as [|item rest Hitem _ IHrest]; [reflexivity|].
    rewrite extract_list_cons.
    rewrite (extract_appends key (PList rest) (extract item [] key)).
    change (entries_preorder (PList (item :: rest)))
      with (entries_preorder item ++ entries_preorder (PList rest)).
    rewrite hd_error_app, find_app, Hitem, IHrest.
    destruct (find (key_match key) (entries_preorder item)); reflexivity.
  - induction IH as [|[k v] rest Hv _ IHrest]; [reflexivity|].
    simpl in Hv. rewrite extract_dict_cons.
    change (entries_preorder (PDict ((k, v) :: rest)))
      with ((k, v) :: entries_preorder v ++ entries_preorder (PDict rest)).
    cbn [find]. unfold key_match at 1. cbn [fst snd].
    destruct (is_dict_or_list v) eqn:Ev.
    + rewrite andb_false_r.
      rewrite (extract_appends key (PDict rest) (extract v [] key)).
      rewrite hd_error_app, find_app, Hv, IHrest.
      destruct (find (key_match key) (entries_preorder v)); reflexivity.
    + rewrite andb_true_r. rewrite (entries_preorder_scalar v Ev).
      destruct (String.eqb k key); [reflexivity|]. exact IHrest.
Qed.

Lemma extract_values_preorder (obj : value) (key : string) :
  extract_values obj key = first_match_preorder obj key.
Proof.
  unfold extract_values, first_match_preorder.
  pose proof (extract_first key obj) as H.
  destruct (extract obj [] key) as [|r rest];
    destruct (find (key_match key) (entries_preorder obj)) as [kv|];
    simpl in H; congruence.
Qed.

(** C5.  [extract_values(obj, k)] is the pre-order search of the spec: it
    returns the value of the first entry, in iteration order and
    descending into nested mappings and sequences, whose key is k and whose
    value is not itself descended into; it returns None when there is no
    such entry; being a function of (obj, k), two runs agree. *)
Theorem extract_values_first_match (obj : value) (key : string) :
  extract_values obj key = first_match_preorder obj key /\
  (find (key_match key) (entries_preorder obj) = None ->
   extract_values obj key = PNone) /\
  (forall obj' key', obj' = obj -> key' = key ->
                     extract_values obj' key' = extract_values obj key).
Proof.
  pose proof (extract_values_preorder obj key) as Heq.
  split; [exact Heq|]. split.
  - intros Hnone. rewrite Heq. unfold first_match_preorder. now rewrite Hnone.
  - intros obj' key' -> ->. reflexivity.
Qed.

Lemma extract_values_first_match_witness :
  find (key_match "ramMb") (entries_preorder nested_device)
    = Some ("ramMb", PInt 4096) /\
  extract_values nested_device "ramMb" = PInt 4096 /\
  find (key_match "cpuMake") (entries_preorder nested_device) = None /\
  extract_values nested_device "cpuMake" = PNone.
Proof.
  split; [reflexivity|]. split; [|split; [reflexivity|]].
  - rewrite (proj1 (extract_values_first_match nested_device "ramMb")).
    reflexivity.
  - apply (proj1 (proj2 (extract_values_first_match nested_device "cpuMake"))).
    reflexivity.
Defined.

(** C10.  [extract_values] never returns a mapping or a sequence; when the
    key occurs only with mappings or sequences as values, it returns None
    although the key is present. *)
Theorem extract_values_never_composite (obj : value) (key : string) :
  is_dict_or_list (extract_values obj key) = false /\
  ((forall v, In (key, v) (entries_preorder obj) -> is_dict_or_list v = true) ->
   extract_values obj key = PNone).
Proof.
  rewrite extract_values_preorder. unfold first_match_preorder.
  destruct (find (key_match key) (entries_preorder obj)) as [[k v]|] eqn:Ef.
  - apply find_some in Ef. destruct Ef as [Hin Hm].
    unfold key_match in Hm. simpl in Hm. apply andb_prop in Hm.
    destruct Hm as [Hk Hv]. apply String.eqb_eq in Hk. subst k.
    apply negb_true_iff in Hv. simpl. split; [exact Hv|].
    intros Hall. rewrite (Hall v Hin) in Hv. discriminate.
  - split; reflexivity.
Qed.

Lemma extract_values_never_composite_witness :
  In ("device", PDict [("productName", PStr "walleye")])
     (entries_preorder nested_device) /\
  (forall v, In ("device", v) (entries_preorder nested_device) ->
             is_dict_or_list v = true) /\
  extract_values nested_device "device" = PNone.
Proof.
  assert (H : forall v, In ("device", v) (entries_preorder nested_device) ->
                        is_dict_or_list v = true).
  { intros v Hin. simpl in Hin.
    repeat destruct Hin as [Hin|Hin]; try discriminate Hin; try contradiction.
    inversion Hin. reflexivity. }
  split; [simpl; auto|]. split; [exact H|].
  exact (proj2 (extract_values_never_composite nested_device "device") H).
Defined.

End ExtractValuesFacts.

(** ** extract_comments *)

Module ExtractCommentsFacts.
Import PlayStore PlayStoreSpec PyFacts Examples.

Lemma only_sets_refl (fs : list string) (rd : dict) : only_sets fs rd rd.
Proof. split; auto. Qed.

Lemma only_sets_trans (fs : list string) (rd1 rd2 rd3 : dict) :
  only_sets fs rd1 rd2 -> only_sets fs rd2 rd3 -> only_sets fs rd1 rd3.
Proof.
  intros [H1 G1] [H2 G2]. split.
  - intros f Hf. rewrite H2, H1; auto.
  - auto.
Qed.

Lemma only_sets_incl (fs fs' : list string) (rd rd' : dict) :
  incl fs fs' -> only_sets fs rd rd' -> only_sets fs' rd rd'.
Proof.
  intros Hincl [H G]. split; [|exact G].
  intros f Hf. apply H. intros Hin. apply Hf, Hincl, Hin.
Qed.

Lemma only_sets_dict_set (fs : list string) (k : string) (v : value) (rd : dict) :
  In k fs -> only_sets fs rd (dict_set k v rd).
Proof.
  intros Hk. split.
  - intros f Hf. apply dict_get_set_other. intros ->. contradiction.
  - intros f Hf. destruct (string_dec k f) as [->|Hne].
    + rewrite dict_get_set_same. discriminate.
    + now rewrite dict_get_set_other.
Qed.

Lemma extract_all_only_sets (ks : list (string * string)) (obj : value) :
  forall rd, only_sets (map snd ks) rd (extract_all ks obj rd).
Proof.
  unfold extract_all. induction ks as [|n rest IH]; intros rd; simpl.
  - apply only_sets_refl.
  - eapply only_sets_trans.
    + apply only_sets_dict_set. left. reflexivity.
    + eapply only_sets_incl; [|apply IH]. intros x Hx. right. exact Hx.
Qed.

Lemma user_comment_val_only_sets (user_comment : value) (rd rd' : dict)
      (val : value) :
  user_comment_val user_comment rd val = Ok rd' -> only_sets user_fields rd rd'.
Proof.
  unfold user_comment_val. intros H.
  destruct (eq_str val "text").
  { destruct (getitem user_comment "text"); simpl in H; inversion H.
    apply only_sets_dict_set. simpl. auto. }
  destruct (eq_str val "lastModified").
  { destruct (getitem user_comment "lastModified") as [lm|]; simpl in H;
      [|discriminate].
    destruct (extract_timestamp lm) as [sn|]; simpl in H; inversion H.
    eapply only_sets_trans; apply only_sets_dict_set; simpl; auto. }
  destruct (eq_str val "deviceMetadata"); apply Ok_inj in H; subst rd'.
  - eapply only_sets_incl; [|apply extract_all_only_sets].
    intros x Hx. unfold user_fields. do 3 right. apply in_or_app. auto.
  - eapply only_sets_incl; [|apply extract_all_only_sets].
    intros x Hx. unfold user_fields. do 3 right. apply in_or_app. auto.
Qed.

Lemma dev_comment_val_only_sets (dev_comment : value) (rd rd' : dict)
      (val : value) :
  dev_comment_val dev_comment rd val = Ok rd' -> only_sets dev_fields rd rd'.
Proof.
  unfold dev_comment_val. intros H.
  destruct (eq_str val "lastModified").
  { destruct (getitem dev_comment "lastModified") as [lm|]; simpl in H;
      [|discriminate].
    destruct (extract_timestamp lm) as [sn|]; simpl in H; inversion H.
    eapply only_sets_trans; apply only_sets_dict_set; simpl; auto. }
  destruct (eq_str val "text").
  { destruct (getitem dev_comment "text"); simpl in H; inversion H.
    apply only_sets_dict_set. simpl. auto. }
  inversion H. apply only_sets_refl.
Qed.

(** The user-comment part of [comment_entry]. *)
Lemma user_section_only_sets (comment : value) (rd rd' : dict) :
  (user_comment <- getitem comment "userComment" ;;
   vals <- iter user_comment ;;
   foldM (user_comment_val user_comment) vals rd) = Ok rd' ->
  only_sets user_fields rd rd'.
Proof.
  destruct (getitem comment "userComment") as [uc|]; simpl; [|discriminate].
  destruct (iter uc) as [vals|]; simpl; [|discriminate].
  apply foldM_preserves.
  - apply only_sets_refl.
  - apply only_sets_trans.
  - intros s a s' _. apply user_comment_val_only_sets.
Qed.

(** The developer-comment part of [comment_entry]. *)
Lemma dev_section_only_sets (comment : value) (rd rd' : dict) :
  (dev_comment <- getitem comment "developerComment" ;;
   vals <- iter dev_comment ;;
   foldM (dev_comment_val dev_comment) vals rd) = Ok rd' ->
  only_sets dev_fields rd rd'.
Proof.
  destruct (getitem comment "developerComment") as [dc|]; simpl; [|discriminate].
  destruct (iter dc) as [vals|]; simpl; [|discriminate].
  apply foldM_preserves.
  - apply only_sets_refl.
  - apply only_sets_trans.
  - intros s a s' _. apply dev_comment_val_only_sets.
Qed.

(** One entry of a comment assigns user fields when it is ['userComment'],
    developer fields when it is ['developerComment'], nothing otherwise. *)
Lemma comment_entry_only_sets (comment : value) (rd rd' : dict) (entry : value) :
  comment_entry comment rd entry = Ok rd' ->
  only_sets ((if eq_str entry "userComment" then user_fields else [])
               ++ (if eq_str entry "developerComment" then dev_fields else []))
            rd rd'.
Proof.
  unfold comment_entry. intros H.
  destruct (eq_str entry "userComment") eqn:Eu.
  - destruct (user_comment <- getitem comment "userComment" ;;
              vals <- iter user_comment ;;
              foldM (user_comment_val user_comment) vals rd) as [rd1|] eqn:E1;
      simpl in H; [|discriminate].
    apply user_section_only_sets in E1.
    destruct (eq_str entry "developerComment").
    + apply dev_section_only_sets in H.
      eapply only_sets_trans; (eapply only_sets_incl; [|eassumption]).
      * apply incl_appl, incl_refl.
      * apply incl_appr, incl_refl.
    + inversion H. subst rd'.
      eapply only_sets_incl; [|eassumption]. apply incl_appl, incl_refl.
  - simpl in H. destruct (eq_str entry "developerComment").
    + apply dev_section_only_sets in H. exact H.
    + inversion H. apply only_sets_refl.
Qed.

Lemma extract_comments_only_sets (comment rid an : value) (r : dict) :
  extract_comments comment rid an = Ok r ->
  only_sets (user_fields ++ dev_fields) (initial_review_data rid an) r.
Proof.
  unfold extract_comments. intros Hr.
  destruct (iter comment) as [entries|]; simpl in Hr; [|discriminate].
  revert Hr. apply foldM_preserves.
  - apply only_sets_refl.
  - apply only_sets_trans.
  - intros s a s' _ H. apply comment_entry_only_sets in H.
    eapply only_sets_incl; [|exact H].
    destruct (eq_str a "userComment"), (eq_str a "developerComment").
    + apply incl_refl.
    + rewrite app_nil_r. apply incl_appl, incl_refl.
    + apply (incl_appr user_fields (incl_refl dev_fields)).
    + intros x [].
Qed.

(** Every record carries the ids it was called with. *)
Lemma extract_comments_ids (comment rid an : value) (r : dict) :
  extract_comments comment rid an = Ok r ->
  dict_get "review_id" r = Some rid /\ dict_get "author_name" r = Some an.
Proof.
  intros H. apply extract_comments_only_sets in H. destruct H as [H _].
  split; rewrite H; try reflexivity;
    simpl; intuition discriminate.
Qed.

(** A comment without a given section: the entries of the comment are its
    keys, none of which is that section. *)
Lemma extract_comments_without_section (items : dict) (rid an : value) (r : dict)
      (section : string) (fs : list string) :
  dict_get section items = None ->
  (forall rd rd' k, k <> section ->
                    comment_entry (PDict items) rd (PStr k) = Ok rd' ->
                    only_sets fs rd rd') ->
  extract_comments (PDict items) rid an = Ok r ->
  only_sets fs (initial_review_data rid an) r.
Proof.
  intros Hnone Hstep. unfold extract_comments. rewrite iter_dict.
  cbn [bind]. apply foldM_preserves.
  - apply only_sets_refl.
  - apply only_sets_trans.
  - intros rd a rd' Ha. apply in_map_iff in Ha. destruct Ha as (k & <- & Hk).
    apply Hstep. intros ->. now apply dict_get_none_not_in in Hnone.
Qed.

(** C4 as stated fails: a field outside the ten, here user_comment, is
    left out of the record of a comment that does not give it, so two
    records need not have the same fields. *)
Lemma extract_comments_uniform_columns_counterexample :
  exists r1 r2,
    extract_comments (PDict []) (PStr "gp:1") (PStr "Ann") = Ok r1 /\
    extract_comments (PDict [("userComment", user_comment_great)])
                     (PStr "gp:1") (PStr "Ann") = Ok r2 /\
    dict_get "user_comment" r1 = None /\
    dict_get "user_comment" r2 = Some (PStr "great") /\
    keys r1 <> keys r2.
Proof.
  do 2 eexists. split; [reflexivity|]. split; [reflexivity|].
  split; [reflexivity|]. split; [reflexivity|]. discriminate.
Qed.

End ExtractCommentsFacts.

(** ** process_json *)

Module ProcessJsonFacts.
Import PlayStore PlayStoreSpec PyFacts ExtractCommentsFacts Examples.

Lemma in_split_first (x : string) (l : list string) :
  In x l -> exists l1 l2, l = l1 ++ x :: l2 /\ ~ In x l1.
Proof.
  induction l as [|a rest IH]; [intros []|].
  intros Hin. destruct (string_dec a x) as [->|Hne].
  - exists [], rest. split; [reflexivity|]. intros [].
  - destruct Hin as [Heq|Hin]; [contradiction|].
    destruct (IH Hin) as (l1 & l2 & -> & Hnot).
    exists (a :: l1), l2. split; [reflexivity|].
    intros [Heq|H]; [contradiction|]. now apply Hnot.
Qed.

Lemma dict_get_app (k : string) (d1 d2 : dict) :
  dict_get k (d1 ++ d2)
  = match dict_get k d1 with Some v => Some v | None => dict_get k d2 end.
Proof.
  induction d1 as [|[k' v'] rest IH]; simpl; [reflexivity|].
  destruct (String.eqb k' k); auto.
Qed.

Lemma eqb_neq_false (a b : string) : a <> b -> String.eqb a b = false.
Proof. intros H. now apply String.eqb_neq. Qed.


Lemma comments_loop_ok (rid an : value) (cs : list value) (recs : list dict) :
  Forall2 (fun c r => extract_comments c rid an = Ok r) cs recs ->
  forall all,
    foldM (fun all_review_data comment =>
             rid <- read_review_id (Some rid) ;;
             review_data <- extract_comments comment rid an ;;
             Ok (all_review_data ++ [review_data]))
          cs all = Ok (all ++ recs).
Proof.
  induction 1 as [|c r cs recs Hr _ IH]; intros all; simpl.
  - now rewrite app_nil_r.
  - rewrite Hr. simpl. rewrite IH. now rewrite <- app_assoc.
Qed.

(** One key of a review that is not ['comments']. *)
Lemma review_key_step_other (fields : dict) (k : string)
      (rid : option value) (an : value) (all : list dict) :
  In k (keys fields) ->
  k <> "comments" ->
  exists rid' an',
    review_key_step (PDict fields) (rid, an, all) (PStr k) = Ok (rid', an', all) /\
    rid' = (if String.eqb k "reviewId" then dict_get "reviewId" fields else rid) /\
    Some an' = (if String.eqb k "authorName"
                then dict_get "authorName" fields else Some an).
Proof.
  intros Hin Hne. unfold review_key_step. cbn [eq_str getitem].
  rewrite (eqb_neq_false k "comments" Hne).
  destruct (String.eqb k "reviewId") eqn:E1.
  - apply String.eqb_eq in E1. subst k.
    destruct (in_keys_dict_get _ _ Hin) as [v Hv]. rewrite Hv.
    simpl. exists (Some v), an. auto.
  - destruct (String.eqb k "authorName") eqn:E2.
    + apply String.eqb_eq in E2. subst k.
      destruct (in_keys_dict_get _ _ Hin) as [v Hv]. rewrite Hv.
      simpl. exists rid, v. auto.
    + simpl. exists rid, an. auto.
Qed.

(** A stretch of keys of a review without ['comments']: it appends no
    record and binds the ids whose keys it meets. *)
Lemma review_keys_no_comments (fields : dict) (ks : list string) :
  incl ks (keys fields) ->
  ~ In "comments" ks ->
  forall rid an all,
  exists rid' an',
    foldM (review_key_step (PDict fields)) (map PStr ks) (rid, an, all)
    = Ok (rid', an', all) /\
    (In "reviewId" ks -> rid' = dict_get "reviewId" fields) /\
    (~ In "reviewId" ks -> rid' = rid) /\
    (In "authorName" ks -> Some an' = dict_get "authorName" fields) /\
    (~ In "authorName" ks -> an' = an).
Proof.
  induction ks as [|k rest IH]; intros Hincl Hnc rid an all.
  - exists rid, an. simpl. intuition.
  - destruct (review_key_step_other fields k rid an all)
      as (rid1 & an1 & Hstep & Hrid1 & Han1).
    { apply Hincl. left. reflexivity. }
    { intros ->. apply Hnc. left. reflexivity. }
    destruct (IH (fun x Hx => Hincl x (or_intror Hx))
                 (fun H => Hnc (or_intror H)) rid1 an1 all)
      as (rid2 & an2 & Hloop & Hr_in & Hr_out & Ha_in & Ha_out).
    exists rid2, an2. cbn [map foldM]. rewrite Hstep.
    split; [exact Hloop|].
    repeat apply conj.
    + intros Hin. destruct (in_dec string_dec "reviewId" rest) as [Hr|Hr];
        [auto|].
      rewrite (Hr_out Hr). destruct Hin as [->|Hin]; [|contradiction].
      exact Hrid1.
    + intros Hout. rewrite Hr_out by (intros H; apply Hout; right; exact H).
      rewrite Hrid1, eqb_neq_false; [reflexivity|].
      intros ->. apply Hout. left. reflexivity.
    + intros Hin. destruct (in_dec string_dec "authorName" rest) as [Ha|Ha];
        [auto|].
      rewrite (Ha_out Ha). destruct Hin as [->|Hin]; [|contradiction].
      exact Han1.
    + intros Hout. rewrite Ha_out by (intros H; apply Hout; right; exact H).
      rewrite eqb_neq_false in Han1; [congruence|].
      intros ->. apply Hout. left. reflexivity.
Qed.

Lemma NoDup_app_not_both (x : string) (l1 l2 : list string) :
  NoDup (l1 ++ l2) -> In x l1 -> ~ In x l2.
Proof.
  induction l1 as [|a rest IH]; simpl; intros Hnd Hin; [destruct Hin|].
  inversion Hnd as [|? ? Hnot Hrest]; subst.
  destruct Hin as [->|Hin]; [|now apply IH].
  intros H. apply Hnot. apply in_or_app. auto.
Qed.

Lemma not_in_keys_dict_get (k : string) (d : dict) :
  ~ In k (keys d) -> dict_get k d = None.
Proof.
  intros Hnot. destruct (dict_get k d) as [v|] eqn:E; [|reflexivity].
  apply dict_get_some_in in E. contradiction.
Qed.

(** The loop over the top-level keys runs the loop over the reviews once. *)
Lemma process_json_reviews (top : dict) (reviews : value) :
  NoDup (keys top) ->
  dict_get "reviews" top = Some reviews ->
  process_json (PDict top)
  = (rs <- iter reviews ;;
     st <- foldM process_review rs (None, []) ;;
     Ok (snd st)).
Proof.
  intros Hnd Hget. unfold process_json. rewrite iter_dict. cbn [bind].
  destruct (in_split_first "reviews" (keys top)) as (k1 & k2 & Hsplit & Hk1).
  { eapply dict_get_some_in; eauto. }
  assert (Hk2 : ~ In "reviews" k2).
  { rewrite Hsplit in Hnd. apply NoDup_remove_2 in Hnd.
    intros H. apply Hnd. apply in_or_app. auto. }
  rewrite Hsplit, map_app, foldM_app.
  rewrite foldM_skip.
  2:{ intros a st Ha. apply in_map_iff in Ha. destruct Ha as (k & <- & Hk).
      simpl. rewrite eqb_neq_false; [reflexivity|]. intros ->. contradiction. }
  cbn [bind map foldM eq_str]. rewrite String.eqb_refl.
  cbn [getitem]. rewrite Hget. cbn [bind].
  destruct (iter reviews) as [rs|e]; cbn [bind]; [|reflexivity].
  destruct (foldM process_review rs (None, [])) as [st|e]; cbn [bind];
    [|reflexivity].
  rewrite foldM_skip; [reflexivity|].
  intros a st' Ha. apply in_map_iff in Ha. destruct Ha as (k & <- & Hk).
  simpl. rewrite eqb_neq_false; [reflexivity|]. intros ->. contradiction.
Qed.

(** The key ['comments'] of a review, with [review_id] bound. *)
Lemma review_key_step_comments (fields : dict) (cs : list value)
      (rid an : value) (recs all : list dict) :
  dict_get "comments" fields = Some (PList cs) ->
  Forall2 (fun c r => extract_comments c rid an = Ok r) cs recs ->
  review_key_step (PDict fields) (Some rid, an, all) (PStr "comments")
  = Ok (Some rid, an, all ++ recs).
Proof.
  intros Hcomments Hrecs. unfold review_key_step.
  change (eq_str (PStr "comments") "reviewId") with false.
  change (eq_str (PStr "comments") "authorName") with false.
  change (eq_str (PStr "comments") "comments") with true.
  cbn [bind getitem]. rewrite Hcomments. cbn [bind iter].
  rewrite (comments_loop_ok rid an cs recs Hrecs). reflexivity.
Qed.

(** A review whose ['reviewId'] and ['authorName'] come before its
    ['comments']. *)
Lemma process_review_ids_first (pre post : dict) (cs : list value)
      (rid an : value) (recs : list dict) (rid0 : option value) (all : list dict) :
  NoDup (keys (pre ++ ("comments", PList cs) :: post)) ->
  dict_get "reviewId" pre = Some rid ->
  dict_get "authorName" pre = Some an ->
  Forall2 (fun c r => extract_comments c rid an = Ok r) cs recs ->
  process_review (rid0, all) (PDict (pre ++ ("comments", PList cs) :: post))
  = Ok (Some rid, all ++ recs).
Proof.
  intros Hnd Hrid Han Hrecs.
  set (fields := pre ++ ("comments", PList cs) :: post) in *.
  assert (Hkeys : keys fields = keys pre ++ "comments" :: keys post).
  { unfold fields, keys. now rewrite map_app. }
  assert (Hnc_pre : ~ In "comments" (keys pre)).
  { rewrite Hkeys in Hnd. apply NoDup_remove_2 in Hnd.
    intros H. apply Hnd. apply in_or_app. auto. }
  assert (Hnc_post : ~ In "comments" (keys post)).
  { rewrite Hkeys in Hnd. apply NoDup_remove_2 in Hnd.
    intros H. apply Hnd. apply in_or_app. auto. }
  assert (Hid_post : ~ In "reviewId" (keys post)).
  { rewrite Hkeys in Hnd. intros H.
    apply (NoDup_app_not_both "reviewId" _ _ Hnd).
    - eapply dict_get_some_in; eauto.
    - right. exact H. }
  assert (Hcomments : dict_get "comments" fields = Some (PList cs)).
  { unfold fields. rewrite dict_get_app, (not_in_keys_dict_get _ _ Hnc_pre).
    reflexivity. }
  assert (Hrid_f : dict_get "reviewId" fields = Some rid).
  { unfold fields. now rewrite dict_get_app, Hrid. }
  assert (Han_f : dict_get "authorName" fields = Some an).
  { unfold fields. now rewrite dict_get_app, Han. }
  unfold process_review. rewrite iter_dict, Hkeys, map_app. cbn [bind fst snd].
  rewrite foldM_app.
  destruct (review_keys_no_comments fields (keys pre)) with
    (rid := rid0) (an := PNone) (all := all)
    as (rid1 & an1 & Hloop1 & Hr_in & _ & Ha_in & _); auto.
  { rewrite Hkeys. apply incl_appl, incl_refl. }
  rewrite Hloop1. cbn [bind map foldM].
  rewrite (Hr_in (dict_get_some_in _ _ _ Hrid)), Hrid_f.
  assert (an1 = an) as ->.
  { specialize (Ha_in (dict_get_some_in _ _ _ Han)). congruence. }
  rewrite (review_key_step_comments fields cs rid an recs all Hcomments Hrecs).
  destruct (review_keys_no_comments fields (keys post)) with
    (rid := Some rid) (an := an) (all := all ++ recs)
    as (rid2 & an2 & Hloop2 & _ & Hr_out & _); auto.
  { rewrite Hkeys. apply incl_appr, incl_tl, incl_refl. }
  rewrite Hloop2. cbn [bind fst snd]. now rewrite (Hr_out Hid_post).
Qed.

(** The loop over the comments stops at the first comment that does not
    flatten. *)
Lemma comments_loop_first_raise (rid an : value) (cs1 : list value) (c : value)
      (cs2 : list value) (recs1 : list dict) (e : exn) (all : list dict) :
  Forall2 (fun c r => extract_comments c rid an = Ok r) cs1 recs1 ->
  extract_comments c rid an = Raise e ->
  foldM (fun all_review_data comment =>
           rid <- read_review_id (Some rid) ;;
           review_data <- extract_comments comment rid an ;;
           Ok (all_review_data ++ [review_data]))
        (cs1 ++ c :: cs2) all = Raise e.
Proof.
  intros Hok Hbad. rewrite foldM_app.
  rewrite (comments_loop_ok rid an cs1 recs1 Hok all).
  cbn [bind foldM read_review_id]. now rewrite Hbad.
Qed.

Lemma review_key_step_comments_raise (fields : dict) (cs1 : list value)
      (c : value) (cs2 : list value) (rid an : value) (recs1 all : list dict)
      (e : exn) :
  dict_get "comments" fields = Some (PList (cs1 ++ c :: cs2)) ->
  Forall2 (fun c r => extract_comments c rid an = Ok r) cs1 recs1 ->
  extract_comments c rid an = Raise e ->
  review_key_step (PDict fields) (Some rid, an, all) (PStr "comments") = Raise e.
Proof.
  intros Hcomments Hok Hbad. unfold review_key_step.
  change (eq_str (PStr "comments") "reviewId") with false.
  change (eq_str (PStr "comments") "authorName") with false.
  change (eq_str (PStr "comments") "comments") with true.
  cbn [bind getitem]. rewrite Hcomments. cbn [bind iter].
  rewrite (comments_loop_first_raise rid an cs1 c cs2 recs1 e all Hok Hbad).
  reflexivity.
Qed.

(** A review whose ids come before its ['comments'], one of which does not
    flatten. *)
Lemma process_review_ids_first_raise (pre post : dict) (cs1 : list value)
      (c : value) (cs2 : list value) (rid an : value) (recs1 : list dict)
      (e : exn) (rid0 : option value) (all : list dict) :
  NoDup (keys (pre ++ ("comments", PList (cs1 ++ c :: cs2)) :: post)) ->
  dict_get "reviewId" pre = Some rid ->
  dict_get "authorName" pre = Some an ->
  Forall2 (fun c r => extract_comments c rid an = Ok r) cs1 recs1 ->
  extract_comments c rid an = Raise e ->
  process_review (rid0, all)
                 (PDict (pre ++ ("comments", PList (cs1 ++ c :: cs2)) :: post))
  = Raise e.
Proof.
  intros Hnd Hrid Han Hok Hbad.
  set (fields := pre ++ ("comments", PList (cs1 ++ c :: cs2)) :: post) in *.
  assert (Hkeys : keys fields = keys pre ++ "comments" :: keys post).
  { unfold fields, keys. now rewrite map_app. }
  assert (Hnc_pre : ~ In "comments" (keys pre)).
  { rewrite Hkeys in Hnd. apply NoDup_remove_2 in Hnd.
    intros H. apply Hnd. apply in_or_app. auto. }
  assert (Hcomments : dict_get "comments" fields = Some (PList (cs1 ++ c :: cs2))).
  { unfold fields. rewrite dict_get_app, (not_in_keys_dict_get _ _ Hnc_pre).
    reflexivity. }
  assert (Hrid_f : dict_get "reviewId" fields = Some rid).
  { unfold fields. now rewrite dict_get_app, Hrid. }
  assert (Han_f : dict_get "authorName" fields = Some an).
  { unfold fields. now rewrite dict_get_app, Han. }
  unfold process_review. rewrite iter_dict, Hkeys, map_app. cbn [bind fst snd].
  rewrite foldM_app.
  destruct (review_keys_no_comments fields (keys pre)) with
    (rid := rid0) (an := PNone) (all := all)
    as (rid1 & an1 & Hloop1 & Hr_in & _ & Ha_in & _); auto.
  { rewrite Hkeys. apply incl_appl, incl_refl. }
  rewrite Hloop1. cbn [bind map foldM].
  rewrite (Hr_in (dict_get_some_in _ _ _ Hrid)), Hrid_f.
  assert (an1 = an) as ->.
  { specialize (Ha_in (dict_get_some_in _ _ _ Han)). congruence. }
  now rewrite (review_key_step_comments_raise fields cs1 c cs2 rid an recs1 all e
                                              Hcomments Hok Hbad).
Qed.

(** Every comment flattens, or there is a first one that does not. *)
Lemma comments_flatten_or_raise (rid an : value) (cs : list value) :
  (exists recs, Forall2 (fun c r => extract_comments c rid an = Ok r) cs recs) \/
  (exists cs1 c cs2 recs1 e,
      cs = cs1 ++ c :: cs2 /\
      Forall2 (fun c r => extract_comments c rid an = Ok r) cs1 recs1 /\
      extract_comments c rid an = Raise e).
Proof.
  induction cs as [|c cs IH].
  - left. exists []. constructor.
  - destruct (extract_comments c rid an) as [r|e] eqn:E.
    + destruct IH as [[recs Hrecs]|(cs1 & c' & cs2 & recs1 & e & -> & Hok & Hbad)].
      * left. exists (r :: recs). now constructor.
      * right. exists (c :: cs1), c', cs2, (r :: recs1), e.
        split; [reflexivity|]. split; [now constructor | exact Hbad].
    + right. exists [], c, cs, [], e.
      split; [reflexivity|]. split; [constructor | exact E].
Qed.

(** C7 (as amended).  For an input whose single review is a mapping with
    ['reviewId'] and ['authorName'] before ['comments'], a list:
    when [extract_comments] returns a record for every element of the list,
    [process_json] yields exactly one record per element, in order (an
    element holding both a user comment and a developer comment gives one
    record, not two), each with the review's review_id and author_name;
    when [extract_comments] raises on some element, [process_json] raises
    that exception and yields no record; one of the two is the case. *)
Theorem process_json_one_record_per_comment
        (top pre post : dict) (cs : list value) (rid an : value) :
  NoDup (keys top) ->
  dict_get "reviews" top
    = Some (PList [PDict (pre ++ ("comments", PList cs) :: post)]) ->
  NoDup (keys (pre ++ ("comments", PList cs) :: post)) ->
  dict_get "reviewId" pre = Some rid ->
  dict_get "authorName" pre = Some an ->
  (forall recs,
      Forall2 (fun c r => extract_comments c rid an = Ok r) cs recs ->
      process_json (PDict top) = Ok recs /\
      List.length recs = List.length cs /\
      Forall (fun r => dict_get "review_id" r = Some rid /\
                       dict_get "author_name" r = Some an) recs) /\
  (forall cs1 c cs2 recs1 e,
      cs = cs1 ++ c :: cs2 ->
      Forall2 (fun c r => extract_comments c rid an = Ok r) cs1 recs1 ->
      extract_comments c rid an = Raise e ->
      process_json (PDict top) = Raise e) /\
  ((exists recs, Forall2 (fun c r => extract_comments c rid an = Ok r) cs recs) \/
   (exists cs1 c cs2 recs1 e,
       cs = cs1 ++ c :: cs2 /\
       Forall2 (fun c r => extract_comments c rid an = Ok r) cs1 recs1 /\
       extract_comments c rid an = Raise e)).
Proof.
  intros Hnd Hget Hnd_r Hrid Han. split; [|split].
  - intros recs Hrecs. split; [|split].
    + rewrite (process_json_reviews top _ Hnd Hget). cbn [iter bind foldM].
      rewrite (process_review_ids_first pre post cs rid an recs None []
                                        Hnd_r Hrid Han Hrecs).
      reflexivity.
    + symmetry. eapply Forall2_length; eauto.
    + clear - Hrecs. induction Hrecs as [|c r cs recs Hr _ IH]; constructor.
      * now apply extract_comments_ids with c.
      * exact IH.
  - intros cs1 c cs2 recs1 e Hcs Hok Hbad. subst cs.
    rewrite (process_json_reviews top _ Hnd Hget). cbn [iter bind foldM].
    now rewrite (process_review_ids_first_raise pre post cs1 c cs2 rid an recs1 e
                                                None [] Hnd_r Hrid Han Hok Hbad).
  - apply comments_flatten_or_raise.
Qed.

Lemma process_json_one_record_per_comment_witness :
  (Forall2 (fun c r => extract_comments c (PStr "gp:1") (PStr "Ann") = Ok r)
           play_two_comments play_two_records /\
   process_json play_review_two_comments = Ok play_two_records /\
   List.length play_two_records = 2 /\
   Forall (fun r => dict_get "review_id" r = Some (PStr "gp:1") /\
                    dict_get "author_name" r = Some (PStr "Ann"))
          play_two_records) /\
  (extract_comments (PDict [("userComment", PInt 3)]) (PStr "gp:1") (PStr "Ann")
     = Raise TypeError /\
   process_json play_review_second_comment_bad = Raise TypeError).
Proof.
  assert (H : Forall2
                (fun c r => extract_comments c (PStr "gp:1") (PStr "Ann") = Ok r)
                play_two_comments play_two_records).
  { repeat constructor. }
  split.
  - split; [exact H|].
    refine (proj1 (process_json_one_record_per_comment
                     [("reviews", PList [PDict [("reviewId", PStr "gp:1");
                                                ("authorName", PStr "Ann");
                                                ("comments", PList play_two_comments)]])]
                     [("reviewId", PStr "gp:1"); ("authorName", PStr "Ann")] []
                     play_two_comments (PStr "gp:1") (PStr "Ann")
                     _ eq_refl _ eq_refl eq_refl) play_two_records H).
    + repeat constructor. intros [].
    + repeat constructor; simpl; intuition discriminate.
  - split; [reflexivity|].
    refine (proj1 (proj2 (process_json_one_record_per_comment
                     [("reviews",
                       PList [PDict [("reviewId", PStr "gp:1");
                                     ("authorName", PStr "Ann");
                                     ("comments", PList play_comments_second_bad)]])]
                     [("reviewId", PStr "gp:1"); ("authorName", PStr "Ann")] []
                     play_comments_second_bad (PStr "gp:1") (PStr "Ann")
                     _ eq_refl _ eq_refl eq_refl))
                  [PDict [("userComment", user_comment_great)]]
                  (PDict [("userComment", PInt 3)]) []
                  [nth 0 play_second_records []] TypeError eq_refl _ eq_refl).
    + repeat constructor. intros [].
    + repeat constructor; simpl; intuition discriminate.
    + repeat constructor.
Defined.

(** C7 as stated fails: a review whose one comment holds a user comment and
    a developer comment has two comment-bearing sections and gives one
    record. *)
Lemma one_record_per_section_counterexample :
  comment_bearing_sections
    (PDict [("userComment", user_comment_great);
            ("developerComment", dev_comment_thanks)]) = 2 /\
  exists out,
    process_json play_both_in_one_comment = Ok out /\
    List.length out = 1 /\
    List.length out
      <> comment_bearing_sections
           (PDict [("userComment", user_comment_great);
                   ("developerComment", dev_comment_thanks)]).
Proof.
  split; [reflexivity|]. eexists. split; [reflexivity|].
  split; [reflexivity|]. discriminate.
Qed.

(** *** A review without ['reviewId'] *)












(** The key ['comments'] with a comment to read while [review_id] is
    unbound. *)
Lemma review_key_step_unbound (fields : dict) (comments c : value)
      (cs : list value) (an : value) (all : list dict) :
  dict_get "comments" fields = Some comments ->
  iter comments = Ok (c :: cs) ->
  review_key_step (PDict fields) (None, an, all) (PStr "comments")
  = Raise UnboundLocalError.
Proof.
  intros Hcomments Hiter. unfold review_key_step.
  change (eq_str (PStr "comments") "reviewId") with false.
  change (eq_str (PStr "comments") "authorName") with false.
  change (eq_str (PStr "comments") "comments") with true.
  cbn [bind getitem]. rewrite Hcomments. cbn [bind]. rewrite Hiter.
  reflexivity.
Qed.




End ProcessJsonFacts.

(** ** The declared extraction maps *)

Module KeyMapsFacts.
Import AppStore PlayStore.

(** C8.  The destination names are pairwise distinct in [author_keys],
    [other_keys], [link_keys], [content_keys] and [comments_keys];
    [metadata_keys] lists the rule (screenHeightPx,
    device_screen_height_px) twice, as its third and fifth rule, so its
    destination names are not. *)
Theorem declared_maps_destinations :
  NoDup (map dest author_keys) /\
  NoDup (map dest other_keys) /\
  NoDup (map dest link_keys) /\
  NoDup (map dest content_keys) /\
  NoDup (map snd comments_keys) /\
  nth_error metadata_keys 2 = Some ("screenHeightPx", "device_screen_height_px") /\
  nth_error metadata_keys 4 = Some ("screenHeightPx", "device_screen_height_px") /\
  ~ NoDup (map snd metadata_keys).
Proof.
  repeat apply conj;
    try (repeat constructor; simpl; intuition discriminate);
    try reflexivity.
  intros H. simpl in H.
  inversion H as [|? ? _ H1]; subst.
  inversion H1 as [|? ? _ H2]; subst.
  inversion H2 as [|? ? Hnot _]; subst.
  apply Hnot. simpl. auto.
Qed.

End KeyMapsFacts.


(** ** Further properties of get_apple_app_store_reviews.py *)

Module AppStoreExtras.
Import AppStore AppStoreSpec PyFacts AppStoreFacts Examples.

Lemma NoDup_map_eq {A B : Type} (f : A -> B) (l : list A) (a b : A) :
  NoDup (map f l) -> In a l -> In b l -> f a = f b -> a = b.
Proof.
  induction l as [|x rest IH]; simpl; intros Hnd Ha Hb Heq; [destruct Ha|].
  inversion Hnd as [|? ? Hnot Hrest]; subst.
  destruct Ha as [->|Ha], Hb as [->|Hb]; auto.
  - exfalso. apply Hnot. rewrite Heq. now apply in_map.
  - exfalso. apply Hnot. rewrite <- Heq. now apply in_map.
Qed.

(** A loop ends in a state with [P] when one of its steps establishes [P]
    and every step keeps it. *)
Lemma foldM_establishes {S A : Type} (P : S -> Prop)
      (body : S -> A -> result S) (l : list A) (a : A) :
  In a l ->
  (forall s s', body s a = Ok s' -> P s') ->
  (forall s b s', In b l -> body s b = Ok s' -> P s -> P s') ->
  forall s s', foldM body l s = Ok s' -> P s'.
Proof.
  induction l as [|b rest IH]; intros Hin Hest Hkeep s s' H; [destruct Hin|].
  simpl in H. destruct (body s b) as [s1|] eqn:E; [|discriminate].
  destruct Hin as [->|Hrest].
  - assert (Hs1 : P s1) by (eapply Hest; eauto).
    revert Hs1. revert H.
    apply (foldM_preserves (fun s1 s2 => P s1 -> P s2)); auto.
    intros s0 c s0' Hc. apply Hkeep. right. exact Hc.
  - eapply IH; eauto. intros s0 c s0' Hc. apply Hkeep. right. exact Hc.
Qed.

(** One rule keeps the value another rule stored, or stores it again. *)
Lemma extract_match_keeps_value (M : list rule) (S : dict) (key : rule)
      (v w : value) (entry : value) (key' : rule) (rd rd' : dict) :
  NoDup (map dest M) ->
  In key M -> In key' M ->
  dict_get (source_key key) S = Some v ->
  rule_reads key v w ->
  extract_match (PDict S) entry rd key' = Ok rd' ->
  dict_get (dest key) rd = Some w ->
  dict_get (dest key) rd' = Some w.
Proof.
  intros Hnd Hk Hk' Hv Hw Hstep Hrd. unfold extract_match in Hstep.
  destruct (eq_str entry (source_key key'));
    [|apply Ok_inj in Hstep; subst rd'; exact Hrd].
  destruct (string_dec (dest key') (dest key)) as [Hd|Hd].
  - assert (key' = key) as -> by (eapply NoDup_map_eq; eauto).
    cbn [getitem] in Hstep. rewrite Hv in Hstep. cbn [bind] in Hstep.
    unfold rule_reads in Hw.
    destruct (String.eqb (nested_key key) "").
    + subst w. apply Ok_inj in Hstep. subst rd'. apply dict_get_set_same.
    + rewrite Hw in Hstep. cbn [bind] in Hstep. apply Ok_inj in Hstep.
      subst rd'. apply dict_get_set_same.
  - destruct (String.eqb (nested_key key') "").
    + destruct (getitem (PDict S) (source_key key')); cbn [bind] in Hstep;
        [|discriminate].
      apply Ok_inj in Hstep. subst rd'. now rewrite dict_get_set_other.
    + destruct (getitem (PDict S) (source_key key')) as [x|]; cbn [bind] in Hstep;
        [|discriminate].
      destruct (getitem x (nested_key key')); cbn [bind] in Hstep;
        [|discriminate].
      apply Ok_inj in Hstep. subst rd'. now rewrite dict_get_set_other.
Qed.

(** X1.  When the destination names of M are pairwise distinct and
    [extract_matches(M, S)] returns a record, the record holds, for every
    rule whose source key is in S, the value read by that rule under its
    destination name: S[sourceKey] itself for an empty nested key,
    S[sourceKey][nestedKey] otherwise. *)
Theorem extract_matches_values (M : list rule) (S r : dict) (key : rule) (v : value) :
  NoDup (map dest M) ->
  extract_matches M (PDict S) = Ok r ->
  In key M ->
  dict_get (source_key key) S = Some v ->
  exists w, dict_get (dest key) r = Some w /\ rule_reads key v w.
Proof.
  intros Hnd Hr Hk Hv.
  assert (Hw : exists w, rule_reads key v w).
  { unfold rule_reads. destruct (String.eqb (nested_key key) "") eqn:En; [eauto|].
    destruct (getitem v (nested_key key)) as [w|e] eqn:Ew; [eauto|].
    exfalso. unfold extract_matches in Hr. rewrite iter_dict in Hr.
    cbn [bind] in Hr.
    assert (Hin : In (PStr (source_key key)) (map PStr (keys S))).
    { apply in_map. eapply dict_get_some_in; eauto. }
    assert (Hbad : forall acc, exists e',
                 foldM (extract_match (PDict S) (PStr (source_key key))) M acc
                 = Raise e').
    { intros acc. apply foldM_raises with (a := key); [exact Hk|].
      intros s. unfold extract_match. cbn [eq_str]. rewrite String.eqb_refl, En.
      cbn [getitem]. rewrite Hv. cbn [bind]. rewrite Ew. cbn [bind].
      exists e. reflexivity. }
    destruct (foldM_raises
                (fun review_extract entry =>
                   foldM (extract_match (PDict S) entry) M review_extract)
                (map PStr (keys S)) (PStr (source_key key)) Hin Hbad [])
      as [e' He'].
    congruence. }
  destruct Hw as [w Hw]. exists w. split; [|exact Hw].
  unfold extract_matches in Hr. rewrite iter_dict in Hr. cbn [bind] in Hr.
  revert Hr.
  apply (foldM_establishes (fun rd => dict_get (dest key) rd = Some w))
    with (a := PStr (source_key key)).
  - apply in_map. eapply dict_get_some_in; eauto.
  - intros s s'.
    apply (foldM_establishes (fun rd => dict_get (dest key) rd = Some w))
      with (a := key); [exact Hk| |].
    + intros rd rd' Hstep. unfold extract_match in Hstep.
      cbn [eq_str] in Hstep. rewrite String.eqb_refl in Hstep.
      cbn [getitem] in Hstep. rewrite Hv in Hstep. cbn [bind] in Hstep.
      unfold rule_reads in Hw. destruct (String.eqb (nested_key key) "").
      * subst w. apply Ok_inj in Hstep. subst rd'. apply dict_get_set_same.
      * rewrite Hw in Hstep. cbn [bind] in Hstep. apply Ok_inj in Hstep.
        subst rd'. apply dict_get_set_same.
    + intros rd key' rd' Hk' Hstep.
      eapply extract_match_keeps_value; eauto.
  - intros s entry s' _.
    apply (foldM_preserves
             (fun rd rd' => dict_get (dest key) rd = Some w ->
                            dict_get (dest key) rd' = Some w)); auto.
    intros rd key' rd' Hk' Hstep.
    eapply extract_match_keeps_value; eauto.
Qed.

Lemma extract_matches_values_witness :
  exists r,
    extract_matches link_keys
                    (PDict [("attributes",
                             PDict [("rel", PStr "related");
                                    ("href", PStr "https://itunes.apple.com")])])
    = Ok r /\
    exists w, dict_get "link_attributes_href" r = Some w /\
              rule_reads ("attributes", "href", "link_attributes_href")
                         (PDict [("rel", PStr "related");
                                 ("href", PStr "https://itunes.apple.com")]) w.
Proof.
  eexists. split; [reflexivity|].
  apply (extract_matches_values
           link_keys
           [("attributes",
             PDict [("rel", PStr "related");
                    ("href", PStr "https://itunes.apple.com")])]
           _ ("attributes", "href", "link_attributes_href")).
  - repeat constructor; simpl; intuition discriminate.
  - reflexivity.
  - simpl. auto.
  - reflexivity.
Defined.

Lemma keys_dict_update (d e : dict) (x : string) :
  In x (keys (dict_update d e)) <-> In x (keys d) \/ In x (keys e).
Proof.
  unfold dict_update. revert d. induction e as [|[k v] rest IH]; intros d; simpl.
  - intuition.
  - rewrite IH, keys_dict_set. intuition.
Qed.

Lemma NoDup_dict_update (d e : dict) :
  NoDup (keys d) -> NoDup (keys (dict_update d e)).
Proof.
  unfold dict_update. revert d. induction e as [|[k v] rest IH]; intros d Hnd; simpl.
  - exact Hnd.
  - apply IH. now apply NoDup_dict_set.
Qed.

(** [extract_matches] on a mapping whose rules can be resolved. *)
Lemma extract_matches_resolvable (M : list rule) (S : dict) :
  resolvable M S ->
  exists r,
    extract_matches M (PDict S) = Ok r /\
    NoDup (keys r) /\
    forall d, In d (keys r) <->
              exists key, In key M /\ In (source_key key) (keys S) /\ dest key = d.
Proof.
  intros Hres. unfold extract_matches. rewrite iter_dict. cbn [bind].
  destruct (extract_match_entries M S (keys S) (incl_refl _) Hres [])
    as (r & Hr & Hnd & Hk).
  exists r. split; [exact Hr|]. split; [apply Hnd; constructor|].
  intros d. rewrite Hk. simpl. intuition.
Qed.

(** The loop of [flatten_review] over sections that are mappings. *)
Lemma flatten_sections (fields : dict) (secs : list (string * list rule)) :
  (forall name ks, In (name, ks) secs ->
                   exists sec, dict_get name fields = Some (PDict sec) /\
                               resolvable ks sec) ->
  forall acc, exists r,
    foldM (fun review_flat section =>
             sub <- getitem (PDict fields) (fst section) ;;
             e <- extract_matches (snd section) sub ;;
             Ok (dict_update review_flat e))
          secs acc = Ok r /\
    (NoDup (keys acc) -> NoDup (keys r)) /\
    forall d, In d (keys r) <->
              In d (keys acc) \/
              exists name ks sec key,
                In (name, ks) secs /\ dict_get name fields = Some (PDict sec) /\
                In key ks /\ In (source_key key) (keys sec) /\ dest key = d.
Proof.
  induction secs as [|[name ks] rest IH]; intros Hsecs acc.
  - exists acc. simpl. split; [reflexivity|]. split; [auto|].
    intros d. split; [auto|]. intros [H|(n & k & sc & key & [] & _)]. exact H.
  - destruct (Hsecs name ks) as (sec & Hsec & Hres); [left; reflexivity|].
    destruct (extract_matches_resolvable ks sec Hres) as (e & He & _ & Hke).
    destruct (IH (fun n k H => Hsecs n k (or_intror H)) (dict_update acc e))
      as (r & Hr & Hnd & Hk).
    exists r. cbn [foldM fst snd getitem]. rewrite Hsec. cbn [bind].
    rewrite He. cbn [bind]. split; [exact Hr|]. split.
    + intros H. apply Hnd. now apply NoDup_dict_update.
    + intros d. rewrite Hk, keys_dict_update, Hke. split.
      * intros [[H|(key & Hin & Hs & Hd)]|(n & k & sc & key & Hin & Hrest)].
        -- auto.
        -- right. exists name, ks, sec, key. simpl. auto.
        -- right. exists n, k, sc, key. simpl. auto.
      * intros [H|(n & k & sc & key & [Heq|Hin] & Hget & Hkey & Hs & Hd)].
        -- auto.
        -- inversion Heq; subst n k. rewrite Hsec in Hget.
           inversion Hget; subst sc. left. right. exists key. auto.
        -- right. exists n, k, sc, key. auto.
Qed.

(** X2.  A review that is a mapping whose three sections author, link and
    im:contentType are mappings, with every nested key of the rules
    readable, flattens to one record; its fields are exactly the
    destinations of the top-level rules and of the section rules whose
    source keys are present, none twice. *)
Theorem flatten_review_fields (fields : dict) :
  resolvable other_keys fields ->
  sections_resolvable fields ->
  exists r,
    flatten_review (PDict fields) = Ok r /\
    NoDup (keys r) /\
    forall d, In d (keys r) <->
              (exists key, In key other_keys /\
                           In (source_key key) (keys fields) /\ dest key = d) \/
              (exists name ks sec key,
                  In (name, ks) review_sections /\
                  dict_get name fields = Some (PDict sec) /\
                  In key ks /\ In (source_key key) (keys sec) /\ dest key = d).
Proof.
  intros Hres Hsecs. unfold flatten_review.
  destruct (extract_matches_resolvable other_keys fields Hres) as (r0 & Hr0 & Hnd0 & Hk0).
  rewrite Hr0. cbn [bind].
  destruct (flatten_sections fields review_sections Hsecs r0) as (r & Hr & Hnd & Hk).
  exists r. split; [exact Hr|]. split; [auto|].
  intros d. rewrite Hk, Hk0. reflexivity.
Qed.

(** X3.  A review that is a mapping without one of the sections author,
    link, im:contentType does not flatten: [flatten_review] raises. *)
Theorem flatten_review_missing_section (fields : dict) (name : string)
        (ks : list rule) :
  In (name, ks) review_sections ->
  dict_get name fields = None ->
  exists e, flatten_review (PDict fields) = Raise e.
Proof.
  intros Hin Hnone. unfold flatten_review.
  destruct (extract_matches other_keys (PDict fields)) as [r0|e]; cbn [bind];
    [|eauto].
  apply foldM_raises with (a := (name, ks)); [exact Hin|].
  intros s. cbn [fst snd getitem]. rewrite Hnone. cbn [bind]. eauto.
Qed.

(** X4.  [process_reviews] only appends: the list it leaves is the list it
    was given followed by the records it would add to an empty list, whether
    it ends normally or by an exception. *)
Theorem process_reviews_appends (all_reviews : list dict) (review_list : value) :
  process_reviews all_reviews review_list
  = (all_reviews ++ fst (process_reviews [] review_list),
     snd (process_reviews [] review_list)).
Proof.
  unfold process_reviews. destruct (iter review_list) as [l|e]; cbn [fst snd].
  - revert all_reviews. induction l as [|review rest IH]; intros all_reviews.
    + simpl. now rewrite app_nil_r.
    + cbn [process_reviews_loop].
      destruct (flatten_review review) as [review_flat|e]; cbn [fst snd].
      * rewrite (IH (all_reviews ++ [review_flat])).
        rewrite (IH ([] ++ [review_flat])). cbn [fst snd app].
        now rewrite <- app_assoc.
      * now rewrite app_nil_r.
  - now rewrite app_nil_r.
Qed.

Lemma flatten_review_fields_witness :
  resolvable other_keys apple_short_fields /\
  sections_resolvable apple_short_fields /\
  exists r,
    flatten_review (PDict apple_short_fields) = Ok r /\
    NoDup (keys r) /\
    forall d, In d (keys r) <->
              (exists key, In key other_keys /\
                           In (source_key key) (keys apple_short_fields) /\
                           dest key = d) \/
              (exists name ks sec key,
                  In (name, ks) review_sections /\
                  dict_get name apple_short_fields = Some (PDict sec) /\
                  In key ks /\ In (source_key key) (keys sec) /\ dest key = d).
Proof.
  assert (H1 : resolvable other_keys apple_short_fields).
  { intros key v Hin Hget _. simpl in Hin.
    repeat destruct Hin as [<-|Hin]; try contradiction;
      simpl in Hget; inversion Hget; subst; eexists; reflexivity. }
  assert (H2 : sections_resolvable apple_short_fields).
  { intros name ks Hin. simpl in Hin.
    repeat destruct Hin as [Hin|Hin]; try contradiction;
      inversion Hin; subst; eexists; (split; [reflexivity|]);
      intros key v Hk Hget _; simpl in Hk;
      repeat destruct Hk as [<-|Hk]; try contradiction;
      simpl in Hget; inversion Hget; subst; eexists; reflexivity. }
  split; [exact H1|]. split; [exact H2|].
  exact (flatten_review_fields apple_short_fields H1 H2).
Defined.

Lemma flatten_review_missing_section_witness :
  dict_get "link" apple_fields_without_link = None /\
  exists e, flatten_review (PDict apple_fields_without_link) = Raise e.
Proof.
  split; [reflexivity|].
  apply (flatten_review_missing_section apple_fields_without_link "link" link_keys).
  - simpl. auto.
  - reflexivity.
Defined.

Lemma process_reviews_loop_break (good : list value) (bad : value)
      (rest : list value) (e : exn) :
  flatten_review bad = Raise e ->
  forall acc recs,
    foldM (fun recs review =>
             review_flat <- flatten_review review ;; Ok (recs ++ [review_flat]))
          good acc = Ok recs ->
    forall all_reviews,
      process_reviews_loop (all_reviews ++ acc) (good ++ bad :: rest)
      = (all_reviews ++ recs, Some e).
Proof.
  intros Hbad. induction good as [|review good IH]; simpl; intros acc recs H all_reviews.
  - inversion H. now rewrite Hbad.
  - destruct (flatten_review review) as [review_flat|]; simpl in H; [|discriminate].
    rewrite <- app_assoc. apply IH. exact H.
Qed.

Lemma process_reviews_break (good : list value) (bad : value)
      (rest : list value) (recs : list dict) (e : exn) (all_reviews : list dict) :
  flatten_all good = Ok recs ->
  flatten_review bad = Raise e ->
  process_reviews all_reviews (PList (good ++ bad :: rest))
  = (all_reviews ++ recs, Some e).
Proof.
  intros Hgood Hbad. unfold process_reviews. cbn [iter].
  pose proof (process_reviews_loop_break good bad rest e Hbad [] recs Hgood
                                         all_reviews) as H.
  now rewrite app_nil_r in H.
Qed.

Lemma collected_trace_succ (n : nat) :
  collected_trace (n + 1)
  = collected_trace n ++ [Requested (n + 1); SavedJson (n + 1)].
Proof.
  unfold collected_trace. rewrite seq_app, flat_map_app. simpl.
  reflexivity.
Qed.

Section Run.
Variable requests_get : Z -> nat -> response.
Variable review_id : Z.

(** X5.  When, after N well-formed pages, page N+1 holds a review list in
    which some review does not flatten, the run stops at that page and
    returns the records of the first N pages followed by the records of
    the reviews of page N+1 that come before the failing one: what was
    appended before the exception stays in the result. *)
Theorem collect_keeps_records_before_failing_review
        (no_of_pages : nat) (recs : list (list dict)) (reviews : value)
        (good : list value) (bad : value) (rest : list value)
        (recs' : list dict) (e : exn) :
  (forall i, i < List.length recs ->
             well_formed_page (requests_get review_id (i + 1)) (nth i recs [])) ->
  status_code (requests_get review_id (List.length recs + 1)) = 200%Z ->
  json_loads_text (requests_get review_id (List.length recs + 1)) = Some reviews ->
  feed_entry reviews = Ok (PList (good ++ bad :: rest)) ->
  flatten_all good = Ok recs' ->
  flatten_review bad = Raise e ->
  List.length recs < no_of_pages ->
  get_and_collect_reviews requests_get review_id no_of_pages
  = (collected_trace (List.length recs + 1),
     Ok (Some (List.concat recs ++ recs'))).
Proof.
  intros Hwf Hs Hj Hfe Hgood Hbad Hlt. unfold get_and_collect_reviews.
  rewrite (pages_loop_well_formed requests_get review_id recs); [|exact Hwf|lia].
  destruct (no_of_pages - List.length recs) as [|m] eqn:Em; [lia|].
  cbn [seq pages_loop]. unfold get_reviews. simpl plus.
  rewrite Hs. simpl Z.eqb. cbv iota. rewrite Hj, Hfe.
  rewrite (process_reviews_break good bad rest recs' e _ Hgood Hbad).
  rewrite collected_trace_succ. cbn [app]. rewrite <- app_assoc. reflexivity.
Qed.

(** X6.  When every one of the [no_of_pages] pages is well-formed, the run
    requests and saves exactly the pages 1..no_of_pages, in order, and
    returns all their records in page order; it asks for no further
    page. *)
Theorem collect_all_pages (no_of_pages : nat) (recs : list (list dict)) :
  List.length recs = no_of_pages ->
  (forall i, i < no_of_pages ->
             well_formed_page (requests_get review_id (i + 1)) (nth i recs [])) ->
  get_and_collect_reviews requests_get review_id no_of_pages
  = (collected_trace no_of_pages, Ok (Some (List.concat recs))).
Proof.
  intros Hlen Hwf. unfold get_and_collect_reviews.
  rewrite (pages_loop_well_formed requests_get review_id recs).
  - rewrite Hlen, Nat.sub_diag. reflexivity.
  - rewrite Hlen. exact Hwf.
  - lia.
Qed.

(** X7.  When, after N well-formed pages, page N+1 is answered with status
    200 and a text that is not JSON, the run raises the decoding error:
    [json.loads] is outside the [try], and no batch is returned. *)
Theorem collect_raises_on_bad_json (no_of_pages : nat) (recs : list (list dict)) :
  (forall i, i < List.length recs ->
             well_formed_page (requests_get review_id (i + 1)) (nth i recs [])) ->
  status_code (requests_get review_id (List.length recs + 1)) = 200%Z ->
  json_loads_text (requests_get review_id (List.length recs + 1)) = None ->
  List.length recs < no_of_pages ->
  get_and_collect_reviews requests_get review_id no_of_pages
  = (collected_trace (List.length recs) ++ [Requested (List.length recs + 1)],
     Raise JSONDecodeError).
Proof.
  intros Hwf Hs Hj Hlt. unfold get_and_collect_reviews.
  rewrite (pages_loop_well_formed requests_get review_id recs); [|exact Hwf|lia].
  destruct (no_of_pages - List.length recs) as [|m] eqn:Em; [lia|].
  cbn [seq pages_loop]. unfold get_reviews. simpl plus.
  rewrite Hs. simpl Z.eqb. cbv iota. rewrite Hj. reflexivity.
Qed.

Lemma pages_loop_trace (m : nat) :
  forall first all_reviews trace,
  exists t k j,
    fst (pages_loop requests_get review_id (seq first m) all_reviews trace)
    = trace ++ t /\
    k <= m /\
    requested_pages t = seq (first + 1) k /\
    saved_pages t = seq (first + 1) j /\
    (j = k \/ S j = k).
Proof.
  induction m as [|m IH]; intros first all_reviews trace.
  - exists [], 0, 0. cbn [seq pages_loop fst]. rewrite app_nil_r.
    repeat split; try reflexivity; lia.
  - cbn [seq pages_loop].
    destruct (get_reviews requests_get review_id (first + 1)) as [resp|].
    2:{ exists [Requested (first + 1)], 1, 0. cbn [fst].
        repeat split; try reflexivity; lia. }
    destruct (json_loads_text resp) as [reviews|].
    2:{ exists [Requested (first + 1)], 1, 0. cbn [fst].
        repeat split; try reflexivity; lia. }
    destruct (feed_entry reviews) as [review_list|].
    2:{ exists [Requested (first + 1)], 1, 0. cbn [fst].
        repeat split; try reflexivity; lia. }
    destruct (process_reviews all_reviews review_list) as [all' [e|]].
    { exists [Requested (first + 1); SavedJson (first + 1)], 1, 1. cbn [fst].
      rewrite <- app_assoc. repeat split; try reflexivity; lia. }
    destruct (IH (S first) all'
                 ((trace ++ [Requested (first + 1)]) ++ [SavedJson (first + 1)]))
      as (t & k & j & Ht & Hk & Hreq & Hsav & Hjk).
    exists ([Requested (first + 1); SavedJson (first + 1)] ++ t), (S k), (S j).
    rewrite Ht. repeat split.
    + rewrite <- !app_assoc. reflexivity.
    + lia.
    + cbn [requested_pages flat_map app seq]. fold (requested_pages t).
      rewrite Hreq. replace (S first + 1) with (S (first + 1)) by lia.
      reflexivity.
    + cbn [saved_pages flat_map app seq]. fold (saved_pages t).
      rewrite Hsav. replace (S first + 1) with (S (first + 1)) by lia.
      reflexivity.
    + lia.
Qed.

(** X8.  Whatever the API answers, a run asks for the pages 1..k in order
    for some k <= no_of_pages, never for a page twice or out of order, and
    the payloads it saves are those of the pages 1..j in order, where j is
    k or k-1: only the last page asked for can go unsaved. *)
Theorem collect_trace_shape (no_of_pages : nat) :
  exists k j,
    k <= no_of_pages /\
    requested_pages (fst (get_and_collect_reviews requests_get review_id no_of_pages))
    = seq 1 k /\
    saved_pages (fst (get_and_collect_reviews requests_get review_id no_of_pages))
    = seq 1 j /\
    (j = k \/ S j = k).
Proof.
  unfold get_and_collect_reviews.
  destruct (pages_loop_trace no_of_pages 0 [] []) as (t & k & j & Ht & Hk & Hr & Hs & Hjk).
  exists k, j. rewrite Ht. cbn [app]. repeat split; auto.
Qed.

End Run.

Lemma collect_keeps_records_before_failing_review_witness :
  flatten_all [apple_review "name1" "5"] = Ok [apple_record] /\
  flatten_review (PDict apple_fields_without_link) = Raise KeyError /\
  get_and_collect_reviews api_broken_review 1%Z 3
  = ([Requested 1; SavedJson 1], Ok (Some [apple_record])).
Proof.
  split; [reflexivity|]. split; [reflexivity|].
  apply (collect_keeps_records_before_failing_review
           api_broken_review 1%Z 3 []
           (apple_page [apple_review "name1" "5";
                        PDict apple_fields_without_link;
                        apple_review "name3" "1"])
           [apple_review "name1" "5"] (PDict apple_fields_without_link)
           [apple_review "name3" "1"] [apple_record] KeyError).
  - intros i Hi. simpl in Hi. lia.
  - reflexivity.
  - reflexivity.
  - reflexivity.
  - reflexivity.
  - reflexivity.
  - simpl. lia.
Defined.

Lemma collect_all_pages_witness :
  well_formed_page (api_endless 1%Z 1) [apple_record] /\
  get_and_collect_reviews api_endless 1%Z 2
  = ([Requested 1; SavedJson 1; Requested 2; SavedJson 2],
     Ok (Some [apple_record; apple_record])).
Proof.
  assert (Hwf : forall i, well_formed_page (api_endless 1%Z (i + 1)) [apple_record]).
  { intros i. split; [reflexivity|].
    exists (apple_page [apple_review "name1" "5"]), [apple_review "name1" "5"].
    repeat split. }
  split; [apply (Hwf 0)|].
  apply (collect_all_pages api_endless 1%Z 2 [[apple_record]; [apple_record]]).
  - reflexivity.
  - intros i Hi. destruct i as [|[|i]]; [apply (Hwf 0)|apply (Hwf 1)|lia].
Defined.

Lemma collect_raises_on_bad_json_witness :
  status_code (api_not_json 1%Z 1) = 200%Z /\
  json_loads_text (api_not_json 1%Z 1) = None /\
  get_and_collect_reviews api_not_json 1%Z 1 = ([Requested 1], Raise JSONDecodeError).
Proof.
  split; [reflexivity|]. split; [reflexivity|].
  apply (collect_raises_on_bad_json api_not_json 1%Z 1 []).
  - intros i Hi. simpl in Hi. lia.
  - reflexivity.
  - reflexivity.
  - simpl. lia.
Defined.

End AppStoreExtras.


(** ** Further properties of get_google_play_app_reviews.py *)

Module PlayStoreExtras.
Import PlayStore PlayStoreSpec PyFacts ExtractValuesFacts ExtractCommentsFacts.
Import ProcessJsonFacts AppStoreExtras Examples.

(** [d.get(k)], None when the key is missing. *)
Lemma default_get_cons (k k' : string) (v : value) (rest : dict) :
  dict_get k ((k', v) :: rest)
  = if String.eqb k' k then Some v else dict_get k rest.
Proof. reflexivity. Qed.

(** The loop of [extract_timestamp] over keys of the mapping. *)
Lemma extract_timestamp_keys (items : dict) (ks : list string) :
  incl ks (keys items) ->
  forall seconds nanos,
  exists seconds' nanos',
    foldM (fun sn t =>
             seconds <- (if eq_str t "seconds"
                         then getitem (PDict items) "seconds"
                         else Ok (fst sn)) ;;
             nanos <- (if eq_str t "nanos"
                       then getitem (PDict items) "nanos"
                       else Ok (snd sn)) ;;
             Ok (seconds, nanos))
          (map PStr ks) (seconds, nanos) = Ok (seconds', nanos') /\
    (In "seconds" ks -> Some seconds' = dict_get "seconds" items) /\
    (~ In "seconds" ks -> seconds' = seconds) /\
    (In "nanos" ks -> Some nanos' = dict_get "nanos" items) /\
    (~ In "nanos" ks -> nanos' = nanos).
Proof.
  induction ks as [|k rest IH]; intros Hincl seconds nanos.
  - exists seconds, nanos. simpl. intuition.
  - assert (Hk : In k (keys items)) by (apply Hincl; left; reflexivity).
    assert (Hstep : exists s1 n1,
               (seconds0 <- (if eq_str (PStr k) "seconds"
                             then getitem (PDict items) "seconds"
                             else Ok seconds) ;;
                nanos0 <- (if eq_str (PStr k) "nanos"
                           then getitem (PDict items) "nanos"
                           else Ok nanos) ;;
                Ok (seconds0, nanos0)) = Ok (s1, n1) /\
               Some s1 = (if String.eqb k "seconds"
                          then dict_get "seconds" items else Some seconds) /\
               Some n1 = (if String.eqb k "nanos"
                          then dict_get "nanos" items else Some nanos)).
    { cbn [eq_str getitem].
      destruct (String.eqb k "seconds") eqn:E1.
      - apply String.eqb_eq in E1. subst k.
        destruct (in_keys_dict_get _ _ Hk) as [v Hv]. rewrite Hv.
        cbn [bind]. change (String.eqb "seconds" "nanos") with false.
        cbn [bind]. eauto.
      - cbn [bind]. destruct (String.eqb k "nanos") eqn:E2.
        + apply String.eqb_eq in E2. subst k.
          destruct (in_keys_dict_get _ _ Hk) as [v Hv]. rewrite Hv.
          cbn [bind]. eauto.
        + cbn [bind]. eauto. }
    destruct Hstep as (s1 & n1 & Hstep & Hs1 & Hn1).
    destruct (IH (fun x Hx => Hincl x (or_intror Hx)) s1 n1)
      as (s2 & n2 & Hloop & Hs_in & Hs_out & Hn_in & Hn_out).
    exists s2, n2. cbn [map foldM fst snd]. rewrite Hstep.
    split; [exact Hloop|]. repeat apply conj.
    + intros Hin. destruct (in_dec string_dec "seconds" rest) as [Hr|Hr]; [auto|].
      rewrite (Hs_out Hr). destruct Hin as [->|Hin]; [|contradiction].
      exact Hs1.
    + intros Hout. rewrite Hs_out by (intros H; apply Hout; right; exact H).
      rewrite eqb_neq_false in Hs1; [congruence|].
      intros ->. apply Hout. left. reflexivity.
    + intros Hin. destruct (in_dec string_dec "nanos" rest) as [Hr|Hr]; [auto|].
      rewrite (Hn_out Hr). destruct Hin as [->|Hin]; [|contradiction].
      exact Hn1.
    + intros Hout. rewrite Hn_out by (intros H; apply Hout; right; exact H).
      rewrite eqb_neq_false in Hn1; [congruence|].
      intros ->. apply Hout. left. reflexivity.
Qed.

(** [extract_timestamp] on a mapping, for the proofs below. *)
Lemma extract_timestamp_get_or_none (items : dict) :
  extract_timestamp (PDict items)
  = Ok (get_or_none "seconds" items, get_or_none "nanos" items).
Proof.
  unfold extract_timestamp, get_or_none. rewrite iter_dict. cbn [bind].
  destruct (extract_timestamp_keys items (keys items) (incl_refl _) PNone PNone)
    as (s & n & -> & Hs_in & Hs_out & Hn_in & Hn_out).
  destruct (dict_get "seconds" items) as [v|] eqn:E1;
    destruct (dict_get "nanos" items) as [w|] eqn:E2;
    repeat match goal with
           | H : dict_get _ _ = Some _ |- _ => apply dict_get_some_in in H
           | H : dict_get _ _ = None |- _ => apply dict_get_none_not_in in H
           end;
    try specialize (Hs_in E1); try specialize (Hs_out E1);
    try specialize (Hn_in E2); try specialize (Hn_out E2); congruence.
Qed.

(** X9.  For a mapping, [extract_timestamp] never raises and returns the
    pair of its ['seconds'] and ['nanos'] values, None standing for a
    missing one. *)
Theorem extract_timestamp_mapping (items : dict) :
  extract_timestamp (PDict items)
  = Ok (match dict_get "seconds" items with Some v => v | None => PNone end,
        match dict_get "nanos" items with Some v => v | None => PNone end).
Proof.
  unfold extract_timestamp. rewrite iter_dict. cbn [bind].
  destruct (extract_timestamp_keys items (keys items) (incl_refl _) PNone PNone)
    as (s & n & Hloop & Hs_in & Hs_out & Hn_in & Hn_out).
  rewrite Hloop. f_equal. f_equal.
  - destruct (dict_get "seconds" items) as [v|] eqn:E.
    + apply dict_get_some_in in E. specialize (Hs_in E). congruence.
    + apply Hs_out. now apply dict_get_none_not_in.
  - destruct (dict_get "nanos" items) as [v|] eqn:E.
    + apply dict_get_some_in in E. specialize (Hn_in E). congruence.
    + apply Hn_out. now apply dict_get_none_not_in.
Qed.

(** X10.  On a mapping none of whose values is a mapping or a list,
    [extract_values] is the lookup of the key, None when it is missing. *)
Theorem extract_values_flat (items : dict) (key : string) :
  (forall k v, In (k, v) items -> is_dict_or_list v = false) ->
  extract_values (PDict items) key
  = match dict_get key items with Some v => v | None => PNone end.
Proof.
  unfold extract_values. induction items as [|[k v] rest IH]; intros Hflat.
  - reflexivity.
  - rewrite extract_dict_cons, default_get_cons.
    rewrite (Hflat k v) by (left; reflexivity).
    destruct (String.eqb k key); [reflexivity|].
    apply IH. intros k' v' H. apply (Hflat k' v'). right. exact H.
Qed.

Lemma extract_values_flat_witness :
  (forall k v, In (k, v) [("starRating", PInt 5); ("text", PStr "great")] ->
               is_dict_or_list v = false) /\
  extract_values (PDict [("starRating", PInt 5); ("text", PStr "great")]) "text"
  = PStr "great".
Proof.
  assert (H : forall k v, In (k, v) [("starRating", PInt 5); ("text", PStr "great")] ->
                          is_dict_or_list v = false).
  { intros k v [H|[H|[]]]; inversion H; reflexivity. }
  split; [exact H|]. exact (extract_values_flat _ "text" H).
Defined.

(** X11.  [extract_values] invents nothing: what it returns is None or the
    value of an entry of the structure that has the key. *)
Theorem extract_values_sound (obj : value) (key : string) :
  extract_values obj key = PNone \/
  In (key, extract_values obj key) (entries_preorder obj).
Proof.
  rewrite extract_values_preorder. unfold first_match_preorder.
  destruct (find (key_match key) (entries_preorder obj)) as [[k v]|] eqn:E;
    [|left; reflexivity].
  right. apply find_some in E. destruct E as [Hin Hm].
  unfold key_match in Hm. apply andb_prop in Hm. destruct Hm as [Hk _].
  apply String.eqb_eq in Hk. simpl in Hk. subst k. exact Hin.
Qed.

Lemma entries_preorder_dict_app (l1 l2 : dict) :
  entries_preorder (PDict (l1 ++ l2))
  = entries_preorder (PDict l1) ++ entries_preorder (PDict l2).
Proof. cbn [entries_preorder]. apply flat_map_app. Qed.

(** X12.  A match nested under an earlier entry wins over every later
    entry: when no entry before (k, v) matches, v is a mapping or a list
    and the search finds w inside v, [extract_values] returns w whatever
    follows, also a later entry that has the key at the top level. *)
Theorem extract_values_earlier_nested_wins
        (pre post : dict) (k : string) (v : value) (key : string)
        (kv : string * value) :
  find (key_match key) (entries_preorder (PDict pre)) = None ->
  is_dict_or_list v = true ->
  find (key_match key) (entries_preorder v) = Some kv ->
  extract_values (PDict (pre ++ (k, v) :: post)) key = snd kv.
Proof.
  intros Hpre Hv Hin. rewrite extract_values_preorder. unfold first_match_preorder.
  rewrite entries_preorder_dict_app, find_app, Hpre.
  change (entries_preorder (PDict ((k, v) :: post)))
    with ((k, v) :: entries_preorder v ++ entries_preorder (PDict post)).
  cbn [find]. unfold key_match at 1. cbn [fst snd]. rewrite Hv, andb_false_r.
  now rewrite find_app, Hin.
Qed.

Lemma extract_values_earlier_nested_wins_witness :
  find (key_match "ramMb")
       (entries_preorder
          (PDict [("device", PDict [("productName", PStr "walleye")]);
                  ("ramMb", PInt 4096)]))
    = Some ("ramMb", PInt 4096) /\
  extract_values nested_device "ramMb" = PInt 4096.
Proof.
  split; [reflexivity|].
  apply (extract_values_earlier_nested_wins
           [] [("ramMb", PInt 1)] "deviceMetadata"
           (PDict [("device", PDict [("productName", PStr "walleye")]);
                   ("ramMb", PInt 4096)])
           "ramMb" ("ramMb", PInt 4096)); reflexivity.
Defined.

Lemma foldM_total {S A : Type} (body : S -> A -> result S) (l : list A) :
  (forall s a, In a l -> exists s', body s a = Ok s') ->
  forall s, exists s', foldM body l s = Ok s'.
Proof.
  induction l as [|a rest IH]; intros Hstep s; simpl; [eauto|].
  destruct (Hstep s a (or_introl eq_refl)) as [s1 H1]. rewrite H1.
  apply IH. intros s0 b Hb. apply Hstep. right. exact Hb.
Qed.

Lemma user_comment_val_total (ucitems : dict) (rd : dict) (k : string) :
  (forall lm, dict_get "lastModified" ucitems = Some lm -> exists l, lm = PDict l) ->
  In k (keys ucitems) ->
  exists rd', user_comment_val (PDict ucitems) rd (PStr k) = Ok rd'.
Proof.
  intros Hlm Hk. unfold user_comment_val. cbn [eq_str getitem].
  destruct (String.eqb k "text") eqn:E1.
  { apply String.eqb_eq in E1. subst k.
    destruct (in_keys_dict_get _ _ Hk) as [v Hv]. rewrite Hv. cbn [bind]. eauto. }
  destruct (String.eqb k "lastModified") eqn:E2.
  { apply String.eqb_eq in E2. subst k.
    destruct (in_keys_dict_get _ _ Hk) as [v Hv]. rewrite Hv. cbn [bind].
    destruct (Hlm v Hv) as [l ->]. rewrite extract_timestamp_get_or_none.
    cbn [bind]. eauto. }
  destruct (String.eqb k "deviceMetadata"); eauto.
Qed.

Lemma dev_comment_val_total (dcitems : dict) (rd : dict) (k : string) :
  (forall lm, dict_get "lastModified" dcitems = Some lm -> exists l, lm = PDict l) ->
  In k (keys dcitems) ->
  exists rd', dev_comment_val (PDict dcitems) rd (PStr k) = Ok rd'.
Proof.
  intros Hlm Hk. unfold dev_comment_val. cbn [eq_str getitem].
  destruct (String.eqb k "lastModified") eqn:E2.
  { apply String.eqb_eq in E2. subst k.
    destruct (in_keys_dict_get _ _ Hk) as [v Hv]. rewrite Hv. cbn [bind].
    destruct (Hlm v Hv) as [l ->]. rewrite extract_timestamp_get_or_none.
    cbn [bind]. eauto. }
  destruct (String.eqb k "text") eqn:E1; [|eauto].
  apply String.eqb_eq in E1. subst k.
  destruct (in_keys_dict_get _ _ Hk) as [v Hv]. rewrite Hv. cbn [bind]. eauto.
Qed.

(** X13.  On a comment that is a mapping whose user and developer comment
    sections, when present, are mappings with a mapping at
    ['lastModified'], [extract_comments] raises nothing and returns a
    record. *)
Theorem extract_comments_total (items : dict) (rid an : value) :
  well_shaped_comment items ->
  exists r, extract_comments (PDict items) rid an = Ok r.
Proof.
  intros [Huser Hdev]. unfold extract_comments. rewrite iter_dict. cbn [bind].
  apply foldM_total. intros rd a Ha. apply in_map_iff in Ha.
  destruct Ha as (k & <- & Hk). unfold comment_entry. cbn [eq_str].
  assert (H1 : exists rd1,
             (if String.eqb k "userComment"
              then user_comment <- getitem (PDict items) "userComment" ;;
                   vals <- iter user_comment ;;
                   foldM (user_comment_val user_comment) vals rd
              else Ok rd) = Ok rd1).
  { destruct (String.eqb k "userComment") eqn:E; [|eauto].
    apply String.eqb_eq in E. subst k. cbn [getitem].
    destruct (in_keys_dict_get _ _ Hk) as [uc Huc]. rewrite Huc. cbn [bind].
    destruct (Huser uc Huc) as (ucitems & -> & Hlm).
    rewrite iter_dict. cbn [bind]. apply foldM_total.
    intros s a Ha. apply in_map_iff in Ha. destruct Ha as (k' & <- & Hk').
    now apply user_comment_val_total. }
  destruct H1 as [rd1 H1]. rewrite H1. cbn [bind].
  destruct (String.eqb k "developerComment") eqn:E; [|eauto].
  apply String.eqb_eq in E. subst k. cbn [getitem].
  destruct (in_keys_dict_get _ _ Hk) as [dc Hdc]. rewrite Hdc. cbn [bind].
  destruct (Hdev dc Hdc) as (dcitems & -> & Hlm).
  rewrite iter_dict. cbn [bind]. apply foldM_total.
  intros s a Ha. apply in_map_iff in Ha. destruct Ha as (k' & <- & Hk').
  now apply dev_comment_val_total.
Qed.

Lemma extract_comments_total_witness :
  well_shaped_comment [("userComment", user_comment_great);
                       ("developerComment", dev_comment_thanks)] /\
  exists r,
    extract_comments (PDict [("userComment", user_comment_great);
                             ("developerComment", dev_comment_thanks)])
                     (PStr "gp:1") (PStr "Ann") = Ok r.
Proof.
  assert (H : well_shaped_comment [("userComment", user_comment_great);
                                   ("developerComment", dev_comment_thanks)]).
  { split; intros sec Hsec; simpl in Hsec; inversion Hsec; subst;
      eexists; (split; [reflexivity|]);
      intros lm Hlm; simpl in Hlm; inversion Hlm; eauto. }
  split; [exact H|]. exact (extract_comments_total _ _ _ H).
Defined.

(** *** The values of the fields of a record *)

Lemma dict_set_keeps (d k : string) (v x : value) (rd : dict) :
  (k = d -> v = x) ->
  dict_get d rd = Some x ->
  dict_get d (dict_set k v rd) = Some x.
Proof.
  intros Hw Hrd. destruct (string_dec k d) as [Heq|Hne].
  - rewrite (Hw Heq). subst k. apply dict_get_set_same.
  - now rewrite dict_get_set_other.
Qed.

Lemma extract_all_keeps (ks : list (string * string)) (obj : value)
      (d : string) (x : value) :
  (forall n, In n ks -> snd n = d -> extract_values obj (fst n) = x) ->
  forall rd, dict_get d rd = Some x -> dict_get d (extract_all ks obj rd) = Some x.
Proof.
  unfold extract_all. induction ks as [|n rest IH]; intros Hw rd Hrd; simpl.
  - exact Hrd.
  - apply IH.
    + intros m Hm. apply Hw. right. exact Hm.
    + apply dict_set_keeps; [|exact Hrd]. apply Hw. left. reflexivity.
Qed.

Lemma extract_all_sets (ks : list (string * string)) (obj : value)
      (n : string * string) :
  In n ks ->
  (forall m, In m ks -> snd m = snd n ->
             extract_values obj (fst m) = extract_values obj (fst n)) ->
  forall rd,
    dict_get (snd n) (extract_all ks obj rd) = Some (extract_values obj (fst n)).
Proof.
  induction ks as [|m rest IH]; intros Hin Hw rd; [destruct Hin|].
  change (extract_all (m :: rest) obj rd)
    with (extract_all rest obj (dict_set (snd m) (extract_values obj (fst m)) rd)).
  destruct Hin as [->|Hin].
  - apply extract_all_keeps.
    + intros m Hm. apply Hw. right. exact Hm.
    + apply dict_get_set_same.
  - apply IH; [exact Hin|]. intros m' Hm'. apply Hw. right. exact Hm'.
Qed.

Lemma user_comment_val_keeps (uc : value) (d : string) (x : value)
      (rd rd' : dict) (val : value) :
  user_writes uc d x ->
  user_comment_val uc rd val = Ok rd' ->
  dict_get d rd = Some x ->
  dict_get d rd' = Some x.
Proof.
  intros (Wtext & Wsec & Wnan & Wmeta & Wcom) H Hrd. unfold user_comment_val in H.
  destruct (eq_str val "text").
  { destruct (getitem uc "text") as [t|] eqn:Et; cbn [bind] in H; [|discriminate].
    apply Ok_inj in H. subst rd'. apply dict_set_keeps; [|exact Hrd].
    intros Hd. symmetry in Hd. specialize (Wtext Hd). congruence. }
  destruct (eq_str val "lastModified").
  { destruct (getitem uc "lastModified") as [lm|] eqn:El; cbn [bind] in H;
      [|discriminate].
    destruct (extract_timestamp lm) as [sn|] eqn:Es; cbn [bind] in H;
      [|discriminate].
    apply Ok_inj in H. subst rd'.
    apply dict_set_keeps.
    - intros Hd. symmetry in Hd. exact (Wnan Hd lm sn eq_refl Es).
    - apply dict_set_keeps; [|exact Hrd].
      intros Hd. symmetry in Hd. exact (Wsec Hd lm sn eq_refl Es). }
  destruct (eq_str val "deviceMetadata"); apply Ok_inj in H; subst rd';
    now apply extract_all_keeps.
Qed.

Lemma dev_comment_val_keeps (dc : value) (d : string) (x : value)
      (rd rd' : dict) (val : value) :
  dev_writes dc d x ->
  dev_comment_val dc rd val = Ok rd' ->
  dict_get d rd = Some x ->
  dict_get d rd' = Some x.
Proof.
  intros (Wtext & Wsec & Wnan) H Hrd. unfold dev_comment_val in H.
  destruct (eq_str val "lastModified").
  { destruct (getitem dc "lastModified") as [lm|] eqn:El; cbn [bind] in H;
      [|discriminate].
    destruct (extract_timestamp lm) as [sn|] eqn:Es; cbn [bind] in H;
      [|discriminate].
    apply Ok_inj in H. subst rd'.
    apply dict_set_keeps.
    - intros Hd. symmetry in Hd. exact (Wnan Hd lm sn eq_refl Es).
    - apply dict_set_keeps; [|exact Hrd].
      intros Hd. symmetry in Hd. exact (Wsec Hd lm sn eq_refl Es). }
  destruct (eq_str val "text").
  { destruct (getitem dc "text") as [t|] eqn:Et; cbn [bind] in H; [|discriminate].
    apply Ok_inj in H. subst rd'. apply dict_set_keeps; [|exact Hrd].
    intros Hd. symmetry in Hd. specialize (Wtext Hd). congruence. }
  apply Ok_inj in H. now subst rd'.
Qed.

(** One entry of the comment keeps a field that every assignment writes
    the same value to. *)
Lemma comment_entry_keeps (items : dict) (d : string) (x : value)
      (rd rd' : dict) (entry : value) :
  (forall uc, dict_get "userComment" items = Some uc -> user_writes uc d x) ->
  (forall dc, dict_get "developerComment" items = Some dc -> dev_writes dc d x) ->
  comment_entry (PDict items) rd entry = Ok rd' ->
  dict_get d rd = Some x ->
  dict_get d rd' = Some x.
Proof.
  intros Wuser Wdev H Hrd. unfold comment_entry in H. cbn [getitem] in H.
  assert (H1 : forall rd1,
             (if eq_str entry "userComment"
              then user_comment <- match dict_get "userComment" items with
                                   | Some v => Ok v
                                   | None => Raise KeyError
                                   end ;;
                   vals <- iter user_comment ;;
                   foldM (user_comment_val user_comment) vals rd
              else Ok rd) = Ok rd1 ->
             dict_get d rd1 = Some x).
  { intros rd1 E. destruct (eq_str entry "userComment").
    - destruct (dict_get "userComment" items) as [uc|] eqn:Euc; cbn [bind] in E;
        [|discriminate].
      destruct (iter uc) as [vals|]; cbn [bind] in E; [|discriminate].
      revert Hrd. revert E.
      apply (foldM_preserves (fun s s' => dict_get d s = Some x ->
                                          dict_get d s' = Some x)); auto.
      intros s a s' _. apply user_comment_val_keeps. now apply Wuser.
    - apply Ok_inj in E. now subst rd1. }
  match type of H with
  | (x0 <- ?first ;; _) = _ => destruct first as [rd1|] eqn:E1
  end; cbn [bind] in H; [|discriminate].
  specialize (H1 rd1 eq_refl).
  destruct (eq_str entry "developerComment").
  - destruct (dict_get "developerComment" items) as [dc|] eqn:Edc; cbn [bind] in H;
      [|discriminate].
    destruct (iter dc) as [vals|]; cbn [bind] in H; [|discriminate].
    revert H1. revert H.
    apply (foldM_preserves (fun s s' => dict_get d s = Some x ->
                                        dict_get d s' = Some x)); auto.
    intros s a s' _. apply dev_comment_val_keeps. now apply Wdev.
  - apply Ok_inj in H. now subst rd'.
Qed.

(** A field written at the key [k] of the user comment has, in the record,
    the value every assignment writes to it. *)
Lemma extract_comments_user_field (items : dict) (rid an : value) (r : dict)
      (ucitems : dict) (k d : string) (x : value) :
  extract_comments (PDict items) rid an = Ok r ->
  dict_get "userComment" items = Some (PDict ucitems) ->
  In k (keys ucitems) ->
  (forall rd rd', user_comment_val (PDict ucitems) rd (PStr k) = Ok rd' ->
                  dict_get d rd' = Some x) ->
  user_writes (PDict ucitems) d x ->
  (forall dc, dict_get "developerComment" items = Some dc -> dev_writes dc d x) ->
  dict_get d r = Some x.
Proof.
  intros Hr Huc Hk Hest Wuser Wdev.
  assert (Wuser' : forall uc, dict_get "userComment" items = Some uc ->
                              user_writes uc d x).
  { intros uc Hget. rewrite Huc in Hget. inversion Hget. exact Wuser. }
  unfold extract_comments in Hr. rewrite iter_dict in Hr. cbn [bind] in Hr.
  revert Hr.
  apply (foldM_establishes (fun rd => dict_get d rd = Some x))
    with (a := PStr "userComment").
  - apply in_map. eapply dict_get_some_in; eauto.
  - intros s s' H. unfold comment_entry in H.
    change (eq_str (PStr "userComment") "userComment") with true in H.
    change (eq_str (PStr "userComment") "developerComment") with false in H.
    cbn [getitem] in H. rewrite Huc in H. cbn [bind] in H.
    rewrite iter_dict in H. cbn [bind] in H.
    destruct (foldM (user_comment_val (PDict ucitems)) (map PStr (keys ucitems)) s)
      as [rd1|] eqn:E; cbn [bind] in H; [|discriminate].
    apply Ok_inj in H. subst s'. revert E.
    apply (foldM_establishes (fun rd => dict_get d rd = Some x))
      with (a := PStr k).
    + now apply in_map.
    + exact Hest.
    + intros rd b rd' _. now apply user_comment_val_keeps.
  - intros s b s' _. now apply comment_entry_keeps.
Qed.

(** The same for the developer comment. *)
Lemma extract_comments_dev_field (items : dict) (rid an : value) (r : dict)
      (dcitems : dict) (k d : string) (x : value) :
  extract_comments (PDict items) rid an = Ok r ->
  dict_get "developerComment" items = Some (PDict dcitems) ->
  In k (keys dcitems) ->
  (forall rd rd', dev_comment_val (PDict dcitems) rd (PStr k) = Ok rd' ->
                  dict_get d rd' = Some x) ->
  (forall uc, dict_get "userComment" items = Some uc -> user_writes uc d x) ->
  dev_writes (PDict dcitems) d x ->
  dict_get d r = Some x.
Proof.
  intros Hr Hdc Hk Hest Wuser Wdev.
  assert (Wdev' : forall dc, dict_get "developerComment" items = Some dc ->
                             dev_writes dc d x).
  { intros dc Hget. rewrite Hdc in Hget. inversion Hget. exact Wdev. }
  unfold extract_comments in Hr. rewrite iter_dict in Hr. cbn [bind] in Hr.
  revert Hr.
  apply (foldM_establishes (fun rd => dict_get d rd = Some x))
    with (a := PStr "developerComment").
  - apply in_map. eapply dict_get_some_in; eauto.
  - intros s s' H. unfold comment_entry in H.
    change (eq_str (PStr "developerComment") "userComment") with false in H.
    change (eq_str (PStr "developerComment") "developerComment") with true in H.
    cbn [bind getitem] in H. rewrite Hdc in H. cbn [bind] in H.
    rewrite iter_dict in H. cbn [bind] in H. revert H.
    apply (foldM_establishes (fun rd => dict_get d rd = Some x))
      with (a := PStr k).
    + now apply in_map.
    + exact Hest.
    + intros rd b rd' _. now apply dev_comment_val_keeps.
  - intros s b s' _. now apply comment_entry_keeps.
Qed.

Ltac in_cases H :=
  simpl in H; repeat destruct H as [<-|H]; try contradiction.

Lemma no_dev_writes (dc : value) (d : string) (x : value) :
  ~ In d dev_fields -> dev_writes dc d x.
Proof.
  intros Hd. repeat split; intros ->; exfalso; apply Hd; simpl; auto.
Qed.

Lemma no_user_writes (uc : value) (d : string) (x : value) :
  ~ In d user_fields -> user_writes uc d x.
Proof.
  intros Hd. repeat split.
  - intros ->. exfalso. apply Hd. simpl. auto.
  - intros ->. exfalso. apply Hd. simpl. auto.
  - intros ->. exfalso. apply Hd. simpl. auto.
  - intros n Hn <-. exfalso. apply Hd. unfold user_fields.
    do 3 right. apply in_or_app. left. now apply in_map.
  - intros n Hn <-. exfalso. apply Hd. unfold user_fields.
    do 3 right. apply in_or_app. right. now apply in_map.
Qed.

(** X14.  When [extract_comments] returns a record for a comment whose
    user comment section is a mapping with a ['text'], the record's
    user_comment is that text; likewise dev_comment_text is the ['text']
    of the developer comment section. *)
Theorem extract_comments_texts (items : dict) (rid an : value) (r : dict) :
  extract_comments (PDict items) rid an = Ok r ->
  (forall ucitems t,
      dict_get "userComment" items = Some (PDict ucitems) ->
      dict_get "text" ucitems = Some t ->
      dict_get "user_comment" r = Some t) /\
  (forall dcitems t,
      dict_get "developerComment" items = Some (PDict dcitems) ->
      dict_get "text" dcitems = Some t ->
      dict_get "dev_comment_text" r = Some t).
Proof.
  intros Hr. split.
  - intros ucitems t Huc Ht.
    apply (extract_comments_user_field items rid an r ucitems "text"); auto.
    + eapply dict_get_some_in; eauto.
    + intros rd rd' H. unfold user_comment_val in H.
      change (eq_str (PStr "text") "text") with true in H.
      cbn [getitem] in H. rewrite Ht in H. cbn [bind] in H.
      apply Ok_inj in H. subst rd'. apply dict_get_set_same.
    + repeat split; try (intros Hd; discriminate Hd).
      * intros _. cbn [getitem]. now rewrite Ht.
      * intros n Hn Hd. in_cases Hn; discriminate Hd.
      * intros n Hn Hd. in_cases Hn; discriminate Hd.
    + intros dc _. apply no_dev_writes. simpl. intuition discriminate.
  - intros dcitems t Hdc Ht.
    apply (extract_comments_dev_field items rid an r dcitems "text"); auto.
    + eapply dict_get_some_in; eauto.
    + intros rd rd' H. unfold dev_comment_val in H.
      change (eq_str (PStr "text") "lastModified") with false in H.
      change (eq_str (PStr "text") "text") with true in H.
      cbn [getitem] in H. rewrite Ht in H. cbn [bind] in H.
      apply Ok_inj in H. subst rd'. apply dict_get_set_same.
    + intros uc _. apply no_user_writes. simpl. intuition discriminate.
    + repeat split; try (intros Hd; discriminate Hd).
      intros _. cbn [getitem]. now rewrite Ht.
Qed.

Lemma extract_comments_texts_witness :
  exists r,
    extract_comments (PDict [("userComment", user_comment_great);
                             ("developerComment", dev_comment_thanks)])
                     (PStr "gp:1") (PStr "Ann") = Ok r /\
    dict_get "user_comment" r = Some (PStr "great") /\
    dict_get "dev_comment_text" r = Some (PStr "thanks").
Proof.
  eexists. split; [reflexivity|].
  pose proof (extract_comments_texts
                [("userComment", user_comment_great);
                 ("developerComment", dev_comment_thanks)]
                (PStr "gp:1") (PStr "Ann") _ eq_refl) as [Hu Hd].
  split.
  - exact (Hu _ (PStr "great") eq_refl eq_refl).
  - exact (Hd _ (PStr "thanks") eq_refl eq_refl).
Defined.

(** The timestamp fields written at ['lastModified']. *)
Lemma timestamp_written (section : dict) (lm : dict) (lm' : value)
      (sn : value * value) :
  dict_get "lastModified" section = Some (PDict lm) ->
  getitem (PDict section) "lastModified" = Ok lm' ->
  extract_timestamp lm' = Ok sn ->
  sn = (get_or_none "seconds" lm, get_or_none "nanos" lm).
Proof.
  intros Hlm Hget Hts. cbn [getitem] in Hget. rewrite Hlm in Hget.
  apply Ok_inj in Hget. subst lm'. rewrite extract_timestamp_get_or_none in Hts.
  apply Ok_inj in Hts. now subst sn.
Qed.

(** X15.  When [extract_comments] returns a record for a comment whose
    user comment section is a mapping with a mapping at ['lastModified'],
    the record's user_comment_last_modified_seconds and _nanos are the
    ['seconds'] and ['nanos'] of that mapping, None for a missing one;
    likewise the dev_comment_last_modified fields for the developer
    comment section. *)
Theorem extract_comments_timestamps (items : dict) (rid an : value) (r : dict) :
  extract_comments (PDict items) rid an = Ok r ->
  (forall ucitems lm,
      dict_get "userComment" items = Some (PDict ucitems) ->
      dict_get "lastModified" ucitems = Some (PDict lm) ->
      dict_get "user_comment_last_modified_seconds" r
        = Some (get_or_none "seconds" lm) /\
      dict_get "user_comment_last_modified_nanos" r
        = Some (get_or_none "nanos" lm)) /\
  (forall dcitems lm,
      dict_get "developerComment" items = Some (PDict dcitems) ->
      dict_get "lastModified" dcitems = Some (PDict lm) ->
      dict_get "dev_comment_last_modified_seconds" r
        = Some (get_or_none "seconds" lm) /\
      dict_get "dev_comment_last_modified_nanos" r
        = Some (get_or_none "nanos" lm)).
Proof.
  intros Hr. split.
  - intros ucitems lm Huc Hlm.
    assert (Hest : forall rd rd',
               user_comment_val (PDict ucitems) rd (PStr "lastModified") = Ok rd' ->
               rd' = dict_set "user_comment_last_modified_nanos"
                              (get_or_none "nanos" lm)
                       (dict_set "user_comment_last_modified_seconds"
                                 (get_or_none "seconds" lm) rd)).
    { intros rd rd' H. unfold user_comment_val in H.
      change (eq_str (PStr "lastModified") "text") with false in H.
      change (eq_str (PStr "lastModified") "lastModified") with true in H.
      cbn [getitem] in H. rewrite Hlm in H. cbn [bind] in H.
      rewrite extract_timestamp_get_or_none in H. cbn [bind fst snd] in H.
      apply Ok_inj in H. now subst rd'. }
    split.
    + apply (extract_comments_user_field items rid an r ucitems "lastModified");
        auto.
      * eapply dict_get_some_in; eauto.
      * intros rd rd' H. rewrite (Hest rd rd' H).
        rewrite dict_get_set_other by discriminate. apply dict_get_set_same.
      * repeat split; try (intros Hd; discriminate Hd).
        -- intros _ lm' sn Hg Hts.
           now rewrite (timestamp_written ucitems lm lm' sn Hlm Hg Hts).
        -- intros n Hn Hd. in_cases Hn; discriminate Hd.
        -- intros n Hn Hd. in_cases Hn; discriminate Hd.
      * intros dc _. apply no_dev_writes. simpl. intuition discriminate.
    + apply (extract_comments_user_field items rid an r ucitems "lastModified");
        auto.
      * eapply dict_get_some_in; eauto.
      * intros rd rd' H. rewrite (Hest rd rd' H). apply dict_get_set_same.
      * repeat split; try (intros Hd; discriminate Hd).
        -- intros _ lm' sn Hg Hts.
           now rewrite (timestamp_written ucitems lm lm' sn Hlm Hg Hts).
        -- intros n Hn Hd. in_cases Hn; discriminate Hd.
        -- intros n Hn Hd. in_cases Hn; discriminate Hd.
      * intros dc _. apply no_dev_writes. simpl. intuition discriminate.
  - intros dcitems lm Hdc Hlm.
    assert (Hest : forall rd rd',
               dev_comment_val (PDict dcitems) rd (PStr "lastModified") = Ok rd' ->
               rd' = dict_set "dev_comment_last_modified_nanos"
                              (get_or_none "nanos" lm)
                       (dict_set "dev_comment_last_modified_seconds"
                                 (get_or_none "seconds" lm) rd)).
    { intros rd rd' H. unfold dev_comment_val in H.
      change (eq_str (PStr "lastModified") "lastModified") with true in H.
      cbn [getitem] in H. rewrite Hlm in H. cbn [bind] in H.
      rewrite extract_timestamp_get_or_none in H. cbn [bind fst snd] in H.
      apply Ok_inj in H. now subst rd'. }
    split.
    + apply (extract_comments_dev_field items rid an r dcitems "lastModified");
        auto.
      * eapply dict_get_some_in; eauto.
      * intros rd rd' H. rewrite (Hest rd rd' H).
        rewrite dict_get_set_other by discriminate. apply dict_get_set_same.
      * intros uc _. apply no_user_writes. simpl. intuition discriminate.
      * repeat split; try (intros Hd; discriminate Hd).
        intros _ lm' sn Hg Hts.
        now rewrite (timestamp_written dcitems lm lm' sn Hlm Hg Hts).
    + apply (extract_comments_dev_field items rid an r dcitems "lastModified");
        auto.
      * eapply dict_get_some_in; eauto.
      * intros rd rd' H. rewrite (Hest rd rd' H). apply dict_get_set_same.
      * intros uc _. apply no_user_writes. simpl. intuition discriminate.
      * repeat split; try (intros Hd; discriminate Hd).
        intros _ lm' sn Hg Hts.
        now rewrite (timestamp_written dcitems lm lm' sn Hlm Hg Hts).
Qed.

Lemma extract_comments_timestamps_witness :
  exists r,
    extract_comments (PDict [("developerComment", dev_comment_thanks)])
                     (PStr "gp:1") (PStr "Ann") = Ok r /\
    dict_get "dev_comment_last_modified_seconds" r = Some (PStr "1596100000") /\
    dict_get "dev_comment_last_modified_nanos" r = Some (PInt 0).
Proof.
  eexists. split; [reflexivity|].
  pose proof (extract_comments_timestamps
                [("developerComment", dev_comment_thanks)]
                (PStr "gp:1") (PStr "Ann") _ eq_refl) as [_ Hd].
  exact (Hd _ [("seconds", PStr "1596100000"); ("nanos", PInt 0)] eq_refl eq_refl).
Defined.

(** X16.  When [extract_comments] returns a record for a comment whose
    user comment section is a mapping with some key other than text,
    lastModified and deviceMetadata, the record has every field of
    [comments_keys], each with what [extract_values] finds for its source
    key in the whole user comment (None when it finds nothing). *)
Theorem extract_comments_comment_fields
        (items : dict) (rid an : value) (r : dict) (ucitems : dict)
        (k : string) (n : string * string) :
  extract_comments (PDict items) rid an = Ok r ->
  dict_get "userComment" items = Some (PDict ucitems) ->
  In k (keys ucitems) ->
  k <> "text" -> k <> "lastModified" -> k <> "deviceMetadata" ->
  In n comments_keys ->
  dict_get (snd n) r = Some (extract_values (PDict ucitems) (fst n)).
Proof.
  intros Hr Huc Hk H1 H2 H3 Hn.
  assert (Hsame : forall m, In m comments_keys -> snd m = snd n ->
                            extract_values (PDict ucitems) (fst m)
                            = extract_values (PDict ucitems) (fst n)).
  { intros m Hm Hd. in_cases Hn; in_cases Hm; try discriminate Hd; reflexivity. }
  apply (extract_comments_user_field items rid an r ucitems k); auto.
  - intros rd rd' H. unfold user_comment_val in H. cbn [eq_str] in H.
    rewrite !eqb_neq_false in H by assumption.
    apply Ok_inj in H. subst rd'. now apply extract_all_sets.
  - repeat split.
    + intros Hd. in_cases Hn; discriminate Hd.
    + intros Hd. in_cases Hn; discriminate Hd.
    + intros Hd. in_cases Hn; discriminate Hd.
    + intros m Hm Hd. in_cases Hn; in_cases Hm; discriminate Hd.
    + exact Hsame.
  - intros dc _. apply no_dev_writes. in_cases Hn; simpl; intuition discriminate.
Qed.

(** X17.  When [extract_comments] returns a record for a comment whose
    user comment section is a mapping with the key deviceMetadata, the
    record has every field of [metadata_keys], each with what
    [extract_values] finds for its source key in the whole user comment. *)
Theorem extract_comments_metadata_fields
        (items : dict) (rid an : value) (r : dict) (ucitems : dict)
        (n : string * string) :
  extract_comments (PDict items) rid an = Ok r ->
  dict_get "userComment" items = Some (PDict ucitems) ->
  In "deviceMetadata" (keys ucitems) ->
  In n metadata_keys ->
  dict_get (snd n) r = Some (extract_values (PDict ucitems) (fst n)).
Proof.
  intros Hr Huc Hk Hn.
  assert (Hsame : forall m, In m metadata_keys -> snd m = snd n ->
                            extract_values (PDict ucitems) (fst m)
                            = extract_values (PDict ucitems) (fst n)).
  { intros m Hm Hd. in_cases Hn; in_cases Hm; try discriminate Hd; reflexivity. }
  apply (extract_comments_user_field items rid an r ucitems "deviceMetadata"); auto.
  - intros rd rd' H. unfold user_comment_val in H.
    change (eq_str (PStr "deviceMetadata") "text") with false in H.
    change (eq_str (PStr "deviceMetadata") "lastModified") with false in H.
    change (eq_str (PStr "deviceMetadata") "deviceMetadata") with true in H.
    apply Ok_inj in H. subst rd'. now apply extract_all_sets.
  - repeat split.
    + intros Hd. in_cases Hn; discriminate Hd.
    + intros Hd. in_cases Hn; discriminate Hd.
    + intros Hd. in_cases Hn; discriminate Hd.
    + exact Hsame.
    + intros m Hm Hd. in_cases Hn; in_cases Hm; discriminate Hd.
  - intros dc _. apply no_dev_writes. in_cases Hn; simpl; intuition discriminate.
Qed.

Lemma extract_comments_comment_fields_witness :
  exists r,
    extract_comments (PDict [("userComment", PDict user_comment_with_device)])
                     (PStr "gp:1") (PStr "Ann") = Ok r /\
    dict_get "device" r = Some (PStr "walleye") /\
    dict_get "star_rating" r = Some PNone.
Proof.
  eexists. split; [reflexivity|]. split.
  - apply (extract_comments_comment_fields
             [("userComment", PDict user_comment_with_device)]
             (PStr "gp:1") (PStr "Ann") _ user_comment_with_device
             "device" ("device", "device") eq_refl eq_refl);
      try discriminate; simpl; auto.
  - apply (extract_comments_comment_fields
             [("userComment", PDict user_comment_with_device)]
             (PStr "gp:1") (PStr "Ann") _ user_comment_with_device
             "device" ("starRating", "star_rating") eq_refl eq_refl);
      try discriminate; simpl; auto.
Defined.

Lemma extract_comments_metadata_fields_witness :
  exists r,
    extract_comments (PDict [("userComment", PDict user_comment_with_device)])
                     (PStr "gp:1") (PStr "Ann") = Ok r /\
    dict_get "device_ram_mb" r = Some (PInt 4096) /\
    dict_get "device_cpu_make" r = Some PNone.
Proof.
  eexists. split; [reflexivity|]. split.
  - apply (extract_comments_metadata_fields
             [("userComment", PDict user_comment_with_device)]
             (PStr "gp:1") (PStr "Ann") _ user_comment_with_device
             ("ramMb", "device_ram_mb") eq_refl eq_refl); simpl; auto 20.
  - apply (extract_comments_metadata_fields
             [("userComment", PDict user_comment_with_device)]
             (PStr "gp:1") (PStr "Ann") _ user_comment_with_device
             ("cpuMake", "device_cpu_make") eq_refl eq_refl); simpl; auto 20.
Defined.

(** *** process_json *)

(** X18.  For an input mapping without the key ['reviews'],
    [process_json] returns the empty list. *)
Theorem process_json_without_reviews (top : dict) :
  dict_get "reviews" top = None ->
  process_json (PDict top) = Ok [].
Proof.
  intros Hnone. unfold process_json. rewrite iter_dict. cbn [bind].
  rewrite foldM_skip; [reflexivity|].
  intros a st Ha. apply in_map_iff in Ha. destruct Ha as (k & <- & Hk).
  cbn [eq_str]. rewrite eqb_neq_false; [reflexivity|].
  intros ->. now apply dict_get_none_not_in in Hnone.
Qed.

Lemma process_json_without_reviews_witness :
  dict_get "reviews" [("tokenPagination", PDict [("nextPageToken", PStr "t")])]
    = None /\
  process_json (PDict [("tokenPagination", PDict [("nextPageToken", PStr "t")])])
  = Ok [].
Proof.
  split; [reflexivity|].
  apply (process_json_without_reviews
           [("tokenPagination", PDict [("nextPageToken", PStr "t")])]).
  reflexivity.
Defined.

(** A review without ['comments'] adds no record and raises nothing. *)
Lemma process_review_without_comments (fields : dict) (st : locals) :
  dict_get "comments" fields = None ->
  exists rid', process_review st (PDict fields) = Ok (rid', snd st).
Proof.
  intros Hnone. unfold process_review. rewrite iter_dict. cbn [bind].
  destruct (review_keys_no_comments fields (keys fields) (incl_refl _)
                                    (dict_get_none_not_in _ _ Hnone)
                                    (fst st) PNone (snd st))
    as (rid' & an' & Hloop & _).
  rewrite Hloop. cbn [bind fst snd]. eauto.
Qed.

(** X19.  When no review of the list has the key ['comments'],
    [process_json] returns the empty list and raises nothing, also when
    reviews lack ['reviewId']. *)
Theorem process_json_no_comments (top : dict) (reviews : list value) :
  NoDup (keys top) ->
  dict_get "reviews" top = Some (PList reviews) ->
  Forall review_without_comments reviews ->
  process_json (PDict top) = Ok [].
Proof.
  intros Hnd Hget Hall. rewrite (process_json_reviews top _ Hnd Hget).
  cbn [iter bind].
  assert (Hloop : forall st, exists rid',
               foldM process_review reviews st = Ok (rid', snd st)).
  { clear Hget. induction Hall as [|review rest (fields & -> & Hnone) _ IH]; intros st.
    - exists (fst st). destruct st. reflexivity.
    - destruct (process_review_without_comments fields st Hnone) as [rid1 H1].
      cbn [foldM]. rewrite H1. destruct (IH (rid1, snd st)) as [rid2 H2].
      exists rid2. exact H2. }
  destruct (Hloop (None, [])) as [rid' H]. rewrite H. reflexivity.
Qed.

Lemma process_json_no_comments_witness :
  Forall review_without_comments
         [PDict [("authorName", PStr "Ann")]; PDict [("reviewId", PStr "gp:1")]] /\
  process_json (PDict [("reviews",
                        PList [PDict [("authorName", PStr "Ann")];
                               PDict [("reviewId", PStr "gp:1")]])])
  = Ok [].
Proof.
  assert (H : Forall review_without_comments
                     [PDict [("authorName", PStr "Ann")];
                      PDict [("reviewId", PStr "gp:1")]]).
  { repeat constructor; eexists; split; reflexivity. }
  split; [exact H|].
  apply (process_json_no_comments
           [("reviews", PList [PDict [("authorName", PStr "Ann")];
                               PDict [("reviewId", PStr "gp:1")]])]
           [PDict [("authorName", PStr "Ann")]; PDict [("reviewId", PStr "gp:1")]]).
  - repeat constructor. intros [].
  - reflexivity.
  - exact H.
Defined.

(** A review with ['reviewId'] before ['comments']: the author name is the
    one bound before ['comments'], None when there is none yet. *)
Lemma process_review_records (review : value) (recs : list dict) (st : locals) :
  review_records review recs ->
  exists rid, process_review st review = Ok (Some rid, snd st ++ recs).
Proof.
  intros (pre & post & cs & rid & -> & Hnd & Hrid & Hrecs).
  exists rid. destruct st as [rid0 all]. cbn [snd].
  set (fields := pre ++ ("comments", PList cs) :: post) in *.
  assert (Hkeys : keys fields = keys pre ++ "comments" :: keys post).
  { unfold fields, keys. now rewrite map_app. }
  assert (Hnc_pre : ~ In "comments" (keys pre)).
  { rewrite Hkeys in Hnd. apply NoDup_remove_2 in Hnd.
    intros H. apply Hnd. apply in_or_app. auto. }
  assert (Hnc_post : ~ In "comments" (keys post)).
  { rewrite Hkeys in Hnd. apply NoDup_remove_2 in Hnd.
    intros H. apply Hnd. apply in_or_app. auto. }
  assert (Hid_post : ~ In "reviewId" (keys post)).
  { rewrite Hkeys in Hnd. intros H.
    apply (NoDup_app_not_both "reviewId" _ _ Hnd).
    - eapply dict_get_some_in; eauto.
    - right. exact H. }
  assert (Hcomments : dict_get "comments" fields = Some (PList cs)).
  { unfold fields. rewrite dict_get_app, (not_in_keys_dict_get _ _ Hnc_pre).
    reflexivity. }
  assert (Hrid_f : dict_get "reviewId" fields = Some rid).
  { unfold fields. now rewrite dict_get_app, Hrid. }
  unfold process_review. rewrite iter_dict, Hkeys, map_app. cbn [bind fst snd].
  rewrite foldM_app.
  destruct (review_keys_no_comments fields (keys pre)) with
    (rid := rid0) (an := PNone) (all := all)
    as (rid1 & an1 & Hloop1 & Hr_in & _ & Ha_in & Ha_out); auto.
  { rewrite Hkeys. apply incl_appl, incl_refl. }
  rewrite Hloop1. cbn [bind map foldM].
  rewrite (Hr_in (dict_get_some_in _ _ _ Hrid)), Hrid_f.
  assert (an1 = get_or_none "authorName" pre) as ->.
  { unfold get_or_none. destruct (dict_get "authorName" pre) as [a|] eqn:Ea.
    - specialize (Ha_in (dict_get_some_in _ _ _ Ea)).
      unfold fields in Ha_in. rewrite dict_get_app, Ea in Ha_in. congruence.
    - apply Ha_out. now apply dict_get_none_not_in. }
  rewrite (review_key_step_comments fields cs rid _ recs all Hcomments Hrecs).
  destruct (review_keys_no_comments fields (keys post)) with
    (rid := Some rid) (an := get_or_none "authorName" pre) (all := all ++ recs)
    as (rid2 & an2 & Hloop2 & _ & Hr_out & _); auto.
  { rewrite Hkeys. apply incl_appr, incl_tl, incl_refl. }
  rewrite Hloop2. cbn [bind fst snd]. now rewrite (Hr_out Hid_post).
Qed.

(** X20.  For a list of reviews that are mappings with ['reviewId'] before
    ['comments'] and whose comments flatten, [process_json] returns the
    records of all the reviews in review order then comment order; each
    record carries the review's id, and the review's author name when
    ['authorName'] comes before ['comments'], None otherwise. *)
Theorem process_json_all_reviews (top : dict) (reviews : list value)
        (recs : list (list dict)) :
  NoDup (keys top) ->
  dict_get "reviews" top = Some (PList reviews) ->
  Forall2 review_records reviews recs ->
  process_json (PDict top) = Ok (List.concat recs).
Proof.
  intros Hnd Hget Hall. rewrite (process_json_reviews top _ Hnd Hget).
  cbn [iter bind].
  assert (Hloop : forall st, exists rid',
               foldM process_review reviews st = Ok (rid', snd st ++ List.concat recs)).
  { clear Hget. induction Hall as [|review r reviews recs Hr _ IH]; intros st.
    - exists (fst st). destruct st. cbn [foldM List.concat snd fst].
      now rewrite app_nil_r.
    - destruct (process_review_records review r st Hr) as [rid1 H1].
      cbn [foldM]. rewrite H1. destruct (IH (Some rid1, snd st ++ r)) as [rid2 H2].
      exists rid2. rewrite H2. cbn [snd List.concat]. now rewrite app_assoc. }
  destruct (Hloop (None, [])) as [rid' H]. rewrite H. reflexivity.
Qed.

Lemma process_json_all_reviews_witness :
  Forall2 review_records [review_ann; review_author_last] play_two_reviews_records /\
  process_json play_two_reviews = Ok (List.concat play_two_reviews_records) /\
  Forall (fun r => dict_get "author_name" r = Some PNone)
         (nth 1 play_two_reviews_records []).
Proof.
  assert (H : Forall2 review_records [review_ann; review_author_last]
                      play_two_reviews_records).
  { constructor; [|constructor; [|constructor]].
    - exists [("reviewId", PStr "gp:1"); ("authorName", PStr "Ann")], [],
        [PDict [("userComment", user_comment_great)]], (PStr "gp:1").
      split; [reflexivity|]. split.
      + repeat constructor; simpl; intuition discriminate.
      + split; [reflexivity|]. repeat constructor.
    - exists [("reviewId", PStr "gp:2")], [("authorName", PStr "Bob")],
        [PDict [("developerComment", dev_comment_thanks)]], (PStr "gp:2").
      split; [reflexivity|]. split.
      + repeat constructor; simpl; intuition discriminate.
      + split; [reflexivity|]. repeat constructor. }
  split; [exact H|]. split.
  - apply (process_json_all_reviews
             [("reviews", PList [review_ann; review_author_last])]
             [review_ann; review_author_last] play_two_reviews_records).
    + repeat constructor. intros [].
    + reflexivity.
    + exact H.
  - repeat constructor.
Defined.

(** X21.  A first review whose ['comments'] (with a comment to read) come
    before its ['reviewId'] makes [process_json] raise UnboundLocalError
    although the review has an id: the id is bound only when the loop over
    the keys reaches it. *)
Theorem process_json_comments_before_id
        (top pre post : dict) (comments c : value) (cs rest : list value) :
  NoDup (keys top) ->
  dict_get "reviews" top
    = Some (PList (PDict (pre ++ ("comments", comments) :: post) :: rest)) ->
  dict_get "comments" pre = None ->
  dict_get "reviewId" pre = None ->
  iter comments = Ok (c :: cs) ->
  process_json (PDict top) = Raise UnboundLocalError.
Proof.
  intros Hnd Hget Hnc Hnoid Hiter. rewrite (process_json_reviews top _ Hnd Hget).
  cbn [iter bind foldM]. unfold process_review at 1.
  set (fields := pre ++ ("comments", comments) :: post).
  assert (Hkeys : keys fields = keys pre ++ "comments" :: keys post).
  { unfold fields, keys. now rewrite map_app. }
  assert (Hcomments : dict_get "comments" fields = Some comments).
  { unfold fields. rewrite dict_get_app, Hnc. cbn [dict_get].
    now rewrite String.eqb_refl. }
  rewrite iter_dict, Hkeys, map_app. cbn [bind fst snd]. rewrite foldM_app.
  destruct (review_keys_no_comments fields (keys pre)) with
    (rid := @None value) (an := PNone) (all := @nil dict)
    as (rid1 & an1 & Hloop & _ & Hr_out & _).
  { rewrite Hkeys. apply incl_appl, incl_refl. }
  { now apply dict_get_none_not_in. }
  rewrite Hloop. cbn [bind map foldM].
  rewrite (Hr_out (dict_get_none_not_in _ _ Hnoid)).
  now rewrite (review_key_step_unbound fields comments c cs an1 [] Hcomments Hiter).
Qed.

Lemma process_json_comments_before_id_witness :
  dict_get "reviewId" [("comments",
                        PList [PDict [("userComment", user_comment_great)]]);
                       ("reviewId", PStr "gp:3")] = Some (PStr "gp:3") /\
  process_json play_comments_before_id = Raise UnboundLocalError.
Proof.
  split; [reflexivity|].
  apply (process_json_comments_before_id
           [("reviews",
             PList [PDict [("comments",
                            PList [PDict [("userComment", user_comment_great)]]);
                           ("reviewId", PStr "gp:3")]])]
           [] [("reviewId", PStr "gp:3")]
           (PList [PDict [("userComment", user_comment_great)]])
           (PDict [("userComment", user_comment_great)]) [] []).
  - repeat constructor. intros [].
  - reflexivity.
  - reflexivity.
  - reflexivity.
  - reflexivity.
Defined.

(** X22.  A comment whose user comment section, or developer comment
    section, cannot be iterated (None, a bool, a number) makes
    [extract_comments] raise. *)
Theorem extract_comments_bad_section (items : dict) (rid an : value)
        (name : string) (section : value) :
  name = "userComment" \/ name = "developerComment" ->
  dict_get name items = Some section ->
  (forall l, iter section <> Ok l) ->
  exists e, extract_comments (PDict items) rid an = Raise e.
Proof.
  intros Hname Hget Hbad. unfold extract_comments. rewrite iter_dict. cbn [bind].
  apply foldM_raises with (a := PStr name).
  - apply in_map. eapply dict_get_some_in; eauto.
  - intros rd. unfold comment_entry. cbn [eq_str getitem].
    assert (Hiter : exists e, iter section = Raise e).
    { destruct (iter section) as [l|e] eqn:E; [|eauto].
      exfalso. now apply (Hbad l). }
    destruct Hiter as [e He].
    destruct Hname as [-> | ->].
    + rewrite String.eqb_refl, Hget. cbn [bind]. rewrite He. cbn [bind]. eauto.
    + change (String.eqb "developerComment" "userComment") with false.
      cbn [bind]. rewrite String.eqb_refl, Hget. cbn [bind]. rewrite He.
      cbn [bind]. eauto.
Qed.

Lemma extract_comments_bad_section_witness :
  dict_get "userComment" [("userComment", PInt 3)] = Some (PInt 3) /\
  exists e, extract_comments (PDict [("userComment", PInt 3)])
                             (PStr "gp:2") PNone = Raise e.
Proof.
  split; [reflexivity|].
  apply (extract_comments_bad_section [("userComment", PInt 3)]
                                      (PStr "gp:2") PNone "userComment" (PInt 3)).
  - left. reflexivity.
  - reflexivity.
  - intros l H. discriminate H.
Defined.

Lemma comments_loop_raises (rid an : value) (cs1 : list value) (c : value)
      (cs2 : list value) (recs1 : list dict) (e : exn) (all : list dict) :
  Forall2 (fun c r => extract_comments c rid an = Ok r) cs1 recs1 ->
  extract_comments c rid an = Raise e ->
  foldM (fun all_review_data comment =>
           rid <- read_review_id (Some rid) ;;
           review_data <- extract_comments comment rid an ;;
           Ok (all_review_data ++ [review_data]))
        (cs1 ++ c :: cs2) all = Raise e.
Proof.
  intros Hok Hbad. rewrite foldM_app.
  rewrite (comments_loop_ok rid an cs1 recs1 Hok all). cbn [bind foldM read_review_id].
  now rewrite Hbad.
Qed.

(** X23.  [process_json] is all or nothing: when, after reviews that
    flatten, a review with ['reviewId'] before ['comments'] holds a comment
    on which [extract_comments] raises, [process_json] raises that
    exception and returns none of the records made before it. *)
Theorem process_json_raises_on_bad_comment
        (top : dict) (good : list value) (recs : list (list dict))
        (pre post : dict) (cs1 : list value) (c : value) (cs2 : list value)
        (recs1 : list dict) (rid : value) (rest : list value) (e : exn) :
  NoDup (keys top) ->
  dict_get "reviews" top
    = Some (PList (good
                     ++ PDict (pre ++ ("comments", PList (cs1 ++ c :: cs2)) :: post)
                     :: rest)) ->
  Forall2 review_records good recs ->
  dict_get "comments" pre = None ->
  dict_get "reviewId" pre = Some rid ->
  Forall2 (fun c r =>
             extract_comments c rid (get_or_none "authorName" pre) = Ok r)
          cs1 recs1 ->
  extract_comments c rid (get_or_none "authorName" pre) = Raise e ->
  process_json (PDict top) = Raise e.
Proof.
  intros Hnd Hget Hgood Hnc Hrid Hok Hbad.
  rewrite (process_json_reviews top _ Hnd Hget). cbn [iter bind].
  rewrite foldM_app.
  assert (Hloop : forall st, exists rid',
               foldM process_review good st = Ok (rid', snd st ++ List.concat recs)).
  { clear Hget. induction Hgood as [|review r good recs Hr _ IH]; intros st.
    - exists (fst st). destruct st. cbn [foldM List.concat snd fst].
      now rewrite app_nil_r.
    - destruct (process_review_records review r st Hr) as [rid1 H1].
      cbn [foldM]. rewrite H1. destruct (IH (Some rid1, snd st ++ r)) as [rid2 H2].
      exists rid2. rewrite H2. cbn [snd List.concat]. now rewrite app_assoc. }
  destruct (Hloop (None, [])) as [rid0 H0]. rewrite H0. cbn [bind foldM snd app].
  set (fields := pre ++ ("comments", PList (cs1 ++ c :: cs2)) :: post).
  assert (Hkeys : keys fields = keys pre ++ "comments" :: keys post).
  { unfold fields, keys. now rewrite map_app. }
  assert (Hcomments : dict_get "comments" fields = Some (PList (cs1 ++ c :: cs2))).
  { unfold fields. rewrite dict_get_app, Hnc. cbn [dict_get].
    now rewrite String.eqb_refl. }
  assert (Hrid_f : dict_get "reviewId" fields = Some rid).
  { unfold fields. now rewrite dict_get_app, Hrid. }
  unfold process_review at 1. rewrite iter_dict, Hkeys, map_app.
  cbn [bind fst snd]. rewrite foldM_app.
  destruct (review_keys_no_comments fields (keys pre)) with
    (rid := rid0) (an := PNone) (all := List.concat recs)
    as (rid1 & an1 & Hloop1 & Hr_in & _ & Ha_in & Ha_out).
  { rewrite Hkeys. apply incl_appl, incl_refl. }
  { now apply dict_get_none_not_in. }
  rewrite Hloop1. cbn [bind map foldM].
  rewrite (Hr_in (dict_get_some_in _ _ _ Hrid)), Hrid_f.
  assert (an1 = get_or_none "authorName" pre) as ->.
  { unfold get_or_none. destruct (dict_get "authorName" pre) as [a|] eqn:Ea.
    - specialize (Ha_in (dict_get_some_in _ _ _ Ea)).
      unfold fields in Ha_in. rewrite dict_get_app, Ea in Ha_in. congruence.
    - apply Ha_out. now apply dict_get_none_not_in. }
  unfold review_key_step at 1.
  change (eq_str (PStr "comments") "reviewId") with false.
  change (eq_str (PStr "comments") "authorName") with false.
  change (eq_str (PStr "comments") "comments") with true.
  cbn [bind getitem]. rewrite Hcomments. cbn [bind iter].
  rewrite (comments_loop_raises rid _ cs1 c cs2 recs1 e _ Hok Hbad).
  reflexivity.
Qed.

Lemma process_json_raises_on_bad_comment_witness :
  extract_comments (PDict [("userComment", PInt 3)]) (PStr "gp:2") PNone
    = Raise TypeError /\
  process_json play_bad_second_review = Raise TypeError.
Proof.
  split; [reflexivity|].
  apply (process_json_raises_on_bad_comment
           [("reviews",
             PList [review_ann;
                    PDict [("reviewId", PStr "gp:2");
                           ("comments",
                            PList [PDict [("developerComment", dev_comment_thanks)];
                                   PDict [("userComment", PInt 3)]])]])]
           [review_ann] [nth 0 play_two_reviews_records []]
           [("reviewId", PStr "gp:2")] []
           [PDict [("developerComment", dev_comment_thanks)]]
           (PDict [("userComment", PInt 3)]) []
           (nth 1 play_two_reviews_records [])
           (PStr "gp:2") [] TypeError).
  - repeat constructor. intros [].
  - reflexivity.
  - constructor; [|constructor].
    exists [("reviewId", PStr "gp:1"); ("authorName", PStr "Ann")], [],
      [PDict [("userComment", user_comment_great)]], (PStr "gp:1").
    split; [reflexivity|]. split.
    + repeat constructor; simpl; intuition discriminate.
    + split; [reflexivity|]. repeat constructor.
  - reflexivity.
  - reflexivity.
  - repeat constructor.
  - reflexivity.
Defined.

End PlayStoreExtras.


(** ** The fields extract_comments sets first *)

Module PrepopulatedFields.
Import PlayStore PlayStoreSpec PyFacts ExtractCommentsFacts.
Import AppStoreExtras PlayStoreExtras Examples.

(** On a value that is no mapping, [extract_timestamp] returns the pair of
    None when it returns at all: a matched item cannot be subscripted. *)
Lemma extract_timestamp_non_mapping (lm : value) (sn : value * value) :
  (forall l, lm <> PDict l) ->
  extract_timestamp lm = Ok sn ->
  sn = (PNone, PNone).
Proof.
  intros Hnd. unfold extract_timestamp.
  destruct (iter lm) as [ts|] eqn:Ei; cbn [bind]; [|discriminate].
  assert (Hget : forall k, getitem lm k = Raise TypeError).
  { intros k. destruct lm; try reflexivity. exfalso. now apply (Hnd items). }
  intros H. symmetry. revert H.
  apply (foldM_preserves (fun s s' : value * value => s = s')).
  - reflexivity.
  - intros s1 s2 s3. congruence.
  - intros s t s' _ Hstep. rewrite !Hget in Hstep.
    destruct (eq_str t "seconds"); cbn [bind] in Hstep; [discriminate|].
    destruct (eq_str t "nanos"); cbn [bind] in Hstep; [discriminate|].
    apply Ok_inj in Hstep. destruct s. exact Hstep.
Qed.

Lemma dev_comment_val_assigns (dc : value) (d : string) (x : value)
      (rd rd' : dict) (val : value) :
  dev_assigns dc d x ->
  dev_comment_val dc rd val = Ok rd' ->
  dict_get d rd = Some x ->
  dict_get d rd' = Some x.
Proof.
  intros (Wtext & Wsec & Wnan) H Hrd. unfold dev_comment_val in H.
  destruct (eq_str val "lastModified").
  { destruct (getitem dc "lastModified") as [lm|] eqn:El; cbn [bind] in H;
      [|discriminate].
    destruct (extract_timestamp lm) as [sn|] eqn:Es; cbn [bind] in H;
      [|discriminate].
    apply Ok_inj in H. subst rd'.
    apply dict_set_keeps.
    - intros Hd. symmetry in Hd. exact (Wnan Hd lm sn eq_refl Es).
    - apply dict_set_keeps; [|exact Hrd].
      intros Hd. symmetry in Hd. exact (Wsec Hd lm sn eq_refl Es). }
  destruct (eq_str val "text").
  { destruct (getitem dc "text") as [t|] eqn:Et; cbn [bind] in H; [|discriminate].
    apply Ok_inj in H. subst rd'. apply dict_set_keeps; [|exact Hrd].
    intros Hd. symmetry in Hd. exact (Wtext Hd t eq_refl). }
  apply Ok_inj in H. now subst rd'.
Qed.

(** One entry of any comment keeps a field that every assignment writes the
    same value to. *)
Lemma comment_entry_assigns (comment : value) (d : string) (x : value)
      (rd rd' : dict) (entry : value) :
  (forall uc, getitem comment "userComment" = Ok uc -> user_writes uc d x) ->
  (forall dc, getitem comment "developerComment" = Ok dc -> dev_assigns dc d x) ->
  comment_entry comment rd entry = Ok rd' ->
  dict_get d rd = Some x ->
  dict_get d rd' = Some x.
Proof.
  intros Wuser Wdev H Hrd. unfold comment_entry in H.
  assert (H1 : forall rd1,
             (if eq_str entry "userComment"
              then user_comment <- getitem comment "userComment" ;;
                   vals <- iter user_comment ;;
                   foldM (user_comment_val user_comment) vals rd
              else Ok rd) = Ok rd1 ->
             dict_get d rd1 = Some x).
  { intros rd1 E. destruct (eq_str entry "userComment").
    - destruct (getitem comment "userComment") as [uc|] eqn:Euc; cbn [bind] in E;
        [|discriminate].
      destruct (iter uc) as [vals|]; cbn [bind] in E; [|discriminate].
      revert Hrd. revert E.
      apply (foldM_preserves (fun s s' => dict_get d s = Some x ->
                                          dict_get d s' = Some x)); auto.
      intros s a s' _. apply user_comment_val_keeps. now apply Wuser.
    - apply Ok_inj in E. now subst rd1. }
  match type of H with
  | (x0 <- ?first ;; _) = _ => destruct first as [rd1|] eqn:E1
  end; cbn [bind] in H; [|discriminate].
  specialize (H1 rd1 eq_refl).
  destruct (eq_str entry "developerComment").
  - destruct (getitem comment "developerComment") as [dc|] eqn:Edc;
      cbn [bind] in H; [|discriminate].
    destruct (iter dc) as [vals|]; cbn [bind] in H; [|discriminate].
    revert H1. revert H.
    apply (foldM_preserves (fun s s' => dict_get d s = Some x ->
                                        dict_get d s' = Some x)); auto.
    intros s a s' _. apply dev_comment_val_assigns. now apply Wdev.
  - apply Ok_inj in H. now subst rd'.
Qed.

(** A field keeps the value it was given first when every assignment the
    comment can cause writes that value. *)
Lemma extract_comments_keeps_initial (comment rid an : value) (r : dict)
      (d : string) (x : value) :
  (forall uc, getitem comment "userComment" = Ok uc -> user_writes uc d x) ->
  (forall dc, getitem comment "developerComment" = Ok dc -> dev_assigns dc d x) ->
  extract_comments comment rid an = Ok r ->
  dict_get d (initial_review_data rid an) = Some x ->
  dict_get d r = Some x.
Proof.
  intros Wuser Wdev Hr. unfold extract_comments in Hr.
  destruct (iter comment) as [entries|]; cbn [bind] in Hr; [|discriminate].
  revert Hr.
  apply (foldM_preserves (fun s s' => dict_get d s = Some x ->
                                      dict_get d s' = Some x)); auto.
  intros s a s' _. now apply comment_entry_assigns.
Qed.

Lemma dev_timestamp_none (dc : value) (key : string) :
  (forall l, getitem dc "lastModified" = Ok (PDict l) -> get_or_none key l = PNone) ->
  forall lm sn,
    getitem dc "lastModified" = Ok lm ->
    extract_timestamp lm = Ok sn ->
    (key = "seconds" -> fst sn = PNone) /\ (key = "nanos" -> snd sn = PNone).
Proof.
  intros Hnone lm sn Hlm Hts. destruct lm as [| | | |s|items|l].
  all: try (assert (Hsn : sn = (PNone, PNone))
              by (eapply extract_timestamp_non_mapping; [|exact Hts];
                  intros l' H'; discriminate H');
            subst sn; split; intros _; reflexivity).
  rewrite extract_timestamp_get_or_none in Hts. apply Ok_inj in Hts. subst sn.
  cbn [fst snd]. split; intros ->; now apply Hnone.
Qed.

(** C4 (as amended).  Every record [extract_comments] returns has the ten
    fields it sets first: review_id, author_name and eight optional
    fields, and each of the eight is None whenever it is unmatched in the
    comment.  A user-side one (reviewer_language, device,
    android_os_version, app_version_code, app_version_name) is None when
    the comment has no user comment section or [extract_values] finds
    nothing for its source key there; dev_comment_text is None when there
    is no developer comment section with a text; each developer timestamp
    field is None when there is no developer comment section with a
    ['lastModified'] mapping holding the value.  (The fields outside the
    ten are in the record only when the comment gives them.) *)
Theorem extract_comments_prepopulated (comment rid an : value) (r : dict) :
  extract_comments comment rid an = Ok r ->
  (forall f, In f fixed_fields -> exists v, dict_get f r = Some v) /\
  (forall n,
      In n comments_keys -> In (snd n) user_side_optional ->
      (forall uc, getitem comment "userComment" = Ok uc ->
                  extract_values uc (fst n) = PNone) ->
      dict_get (snd n) r = Some PNone) /\
  ((forall dc t, getitem comment "developerComment" = Ok dc ->
                 getitem dc "text" = Ok t -> t = PNone) ->
   dict_get "dev_comment_text" r = Some PNone) /\
  ((forall dc l, getitem comment "developerComment" = Ok dc ->
                 getitem dc "lastModified" = Ok (PDict l) ->
                 get_or_none "seconds" l = PNone) ->
   dict_get "dev_comment_last_modified_seconds" r = Some PNone) /\
  ((forall dc l, getitem comment "developerComment" = Ok dc ->
                 getitem dc "lastModified" = Ok (PDict l) ->
                 get_or_none "nanos" l = PNone) ->
   dict_get "dev_comment_last_modified_nanos" r = Some PNone).
Proof.
  intros Hr. repeat apply conj.
  - intros f Hf. pose proof (extract_comments_only_sets _ _ _ _ Hr) as [_ Hkeep].
    assert (Hinit : dict_get f (initial_review_data rid an) <> None).
    { simpl in Hf. repeat destruct Hf as [<-|Hf]; try discriminate.
      contradiction. }
    apply Hkeep in Hinit. destruct (dict_get f r) as [v|]; [eauto|congruence].
  - intros n Hn Hside Hunm.
    apply (extract_comments_keeps_initial comment rid an r (snd n) PNone); auto.
    + intros uc Huc. specialize (Hunm uc Huc). repeat split.
      * intros Hd. in_cases Hn; discriminate Hd.
      * intros Hd. in_cases Hn; discriminate Hd.
      * intros Hd. in_cases Hn; discriminate Hd.
      * intros m Hm Hd. in_cases Hn; in_cases Hm; discriminate Hd.
      * intros m Hm Hd. in_cases Hn; in_cases Hm; try discriminate Hd;
          exact Hunm.
    + intros dc _. repeat split; intros Hd; in_cases Hn; discriminate Hd.
    + in_cases Hn; try reflexivity; simpl in Hside; intuition discriminate.
  - intros Hunm.
    apply (extract_comments_keeps_initial comment rid an r "dev_comment_text" PNone);
      auto.
    + intros uc _. apply no_user_writes. simpl. intuition discriminate.
    + intros dc Hdc. repeat split; try (intros Hd; discriminate Hd).
      intros _ t Ht. exact (Hunm dc t Hdc Ht).
  - intros Hunm.
    apply (extract_comments_keeps_initial
             comment rid an r "dev_comment_last_modified_seconds" PNone); auto.
    + intros uc _. apply no_user_writes. simpl. intuition discriminate.
    + intros dc Hdc. repeat split; try (intros Hd; discriminate Hd).
      intros _ lm sn Hlm Hts.
      apply (dev_timestamp_none dc "seconds" (fun l => Hunm dc l Hdc) lm sn Hlm Hts).
      reflexivity.
  - intros Hunm.
    apply (extract_comments_keeps_initial
             comment rid an r "dev_comment_last_modified_nanos" PNone); auto.
    + intros uc _. apply no_user_writes. simpl. intuition discriminate.
    + intros dc Hdc. repeat split; try (intros Hd; discriminate Hd).
      intros _ lm sn Hlm Hts.
      apply (dev_timestamp_none dc "nanos" (fun l => Hunm dc l Hdc) lm sn Hlm Hts).
      reflexivity.
Qed.

Lemma extract_comments_prepopulated_witness :
  exists r,
    extract_comments (PDict [("userComment", user_comment_great);
                             ("developerComment",
                              PDict [("lastModified", PDict [("nanos", PInt 7)])])])
                     (PStr "gp:1") (PStr "Ann") = Ok r /\
    extract_values user_comment_great "device" = PNone /\
    (forall f, In f fixed_fields -> exists v, dict_get f r = Some v) /\
    dict_get "device" r = Some PNone /\
    dict_get "dev_comment_text" r = Some PNone /\
    dict_get "dev_comment_last_modified_seconds" r = Some PNone.
Proof.
  eexists. split; [reflexivity|]. split; [reflexivity|].
  pose proof (extract_comments_prepopulated
                (PDict [("userComment", user_comment_great);
                        ("developerComment",
                         PDict [("lastModified", PDict [("nanos", PInt 7)])])])
                (PStr "gp:1") (PStr "Ann") _ eq_refl)
    as (Hall & Huser & Htext & Hsec & _).
  split; [exact Hall|]. split; [|split].
  - apply (Huser ("device", "device")).
    + simpl. auto.
    + simpl. auto.
    + intros uc Huc. simpl in Huc. apply Ok_inj in Huc. subst uc. reflexivity.
  - apply Htext. intros dc t Hdc Ht. simpl in Hdc. apply Ok_inj in Hdc. subst dc.
    discriminate Ht.
  - apply Hsec. intros dc l Hdc Hl. simpl in Hdc. apply Ok_inj in Hdc. subst dc.
    simpl in Hl. apply Ok_inj in Hl. inversion Hl. reflexivity.
Defined.

End PrepopulatedFields.
